(** * Langie support agent: the workflow of [agent.py], embedded and verified

    The agent threads one [AgentState] dictionary through ten stage functions
    wired into a graph: five stages in sequence, a branch after DECIDE, a join
    at DO, and a second branch after DO.  Stages call two capability clients.

    Layout: Python values and string helpers; exceptions and the state/error
    monad the stages run in; the two clients (interface and the simulated
    instances of the source); the stages; the routers; the graph and its
    run loop; then the theorems. *)

From Stdlib Require Import ZArith String Ascii List Floats.SpecFloat DecimalString.
From Stdlib Require DecimalZ DecimalPos.
From stdpp Require Import gmap strings list fin_maps.

#[local] Set Warnings "-register-all,-clear-no-such-hyp".
#[local] Open Scope string_scope.
#[local] Open Scope list_scope.

(** ** Python values *)

(** What a [Dict[str, Any]] of the source holds: the scalars and lists the
    clients produce ([calculated_priority] is a float, [extracted_entities] a
    list of strings).  Floats are IEEE binary64 values, [spec_float] at
    precision 53 and exponent bound 1024. *)
Inductive value : Type :=
  | VNone
  | VBool (b : bool)
  | VInt (z : Z)
  | VFloat (f : spec_float)
  | VStr (s : string)
  | VList (l : list value).

(** [str] is [String.string].  The string methods below are Python's on ASCII
    text: [lower]/[upper] map the 26 letters, [strip] removes the ASCII
    characters for which [str.isspace] holds. *)
Definition nl : string := String "010" EmptyString.

Definition lower_ascii (c : ascii) : ascii :=
  let n := nat_of_ascii c in
  if (65 <=? n)%nat && (n <=? 90)%nat then ascii_of_nat (n + 32) else c.

Definition upper_ascii (c : ascii) : ascii :=
  let n := nat_of_ascii c in
  if (97 <=? n)%nat && (n <=? 122)%nat then ascii_of_nat (n - 32) else c.

Fixpoint map_string (f : ascii → ascii) (s : string) : string :=
  match s with
  | EmptyString => EmptyString
  | String c s' => String (f c) (map_string f s')
  end.

Definition lower : string → string := map_string lower_ascii.
Definition upper : string → string := map_string upper_ascii.

Definition is_space (c : ascii) : bool :=
  let n := nat_of_ascii c in
  ((9 <=? n)%nat && (n <=? 13)%nat) || ((28 <=? n)%nat && (n <=? 32)%nat).

Fixpoint lstrip (s : string) : string :=
  match s with
  | String c s' => if is_space c then lstrip s' else s
  | EmptyString => EmptyString
  end.

Fixpoint rstrip (s : string) : string :=
  match s with
  | EmptyString => EmptyString
  | String c s' =>
      match rstrip s' with
      | EmptyString => if is_space c then EmptyString else String c EmptyString
      | r => String c r
      end
  end.

Definition strip (s : string) : string := rstrip (lstrip s).

(** [needle in hay] on two strings: substring test. *)
Fixpoint contains (needle hay : string) : bool :=
  String.prefix needle hay ||
  match hay with
  | EmptyString => false
  | String _ hay' => contains needle hay'
  end.

(** [s[:n]] for [n >= 0]. *)
Fixpoint take_string (n : nat) (s : string) : string :=
  match n, s with
  | S n', String c s' => String c (take_string n' s')
  | _, _ => EmptyString
  end.

(** [str(z)] for an [int]. *)
Definition str_of_int (z : Z) : string := NilZero.string_of_int (Z.to_int z).

(** ** Exceptions and results *)

Inductive exn : Type :=
  | KeyError (key : string)
  | AttributeError (attr : string)
  | TypeError (msg : string)
  | OverflowError (msg : string)
  | CapabilityError (operation : string).

Inductive result (A : Type) : Type :=
  | Ok (a : A)
  | Raise (e : exn).
Arguments Ok {A} a.
Arguments Raise {A} e.

(** [d[key]] on a dictionary. *)
Definition subscript {V} (d : gmap string V) (key : string) : result V :=
  match d !! key with
  | Some v => Ok v
  | None => Raise (KeyError key)
  end.

(** [v.lower()]: only a [str] has the method. *)
Definition value_lower (v : value) : result string :=
  match v with
  | VStr s => Ok (lower s)
  | _ => Raise (AttributeError "lower")
  end.

(** [v == s] against a string literal: values of other types are unequal. *)
Definition value_eq_str (v : value) (s : string) : bool :=
  match v with
  | VStr s' => bool_decide (s' = s)
  | _ => false
  end.

(** [s in v] for a string literal [s]: membership in a list, substring of a
    string, [TypeError] on values that are not containers. *)
Definition str_in_value (s : string) (v : value) : result bool :=
  match v with
  | VList l => Ok (existsb (λ x, value_eq_str x s) l)
  | VStr hay => Ok (contains s hay)
  | _ => Raise (TypeError "argument is not iterable")
  end.

(** binary64 arithmetic for [priority * 1.5]: the [int] operand is converted
    with round-half-even and conversion fails on overflow; the product itself
    overflows silently to infinity. *)
Definition prec : Z := 53.
Definition emax : Z := 1024.

Definition float_of_int (z : Z) : result spec_float :=
  match binary_normalize prec emax z 0 false with
  | S754_infinity _ => Raise (OverflowError "int too large to convert to float")
  | f => Ok f
  end.

Definition one_and_a_half : spec_float := binary_normalize prec emax 3 (-1) false.

Definition int_times_float (z : Z) (f : spec_float) : result spec_float :=
  match float_of_int z with
  | Ok x => Ok (SFmul prec emax x f)
  | Raise e => Raise e
  end.

(** ** The agent state *)

Abbreviation dict := (gmap string value).

Inductive FinalStatus : Type := RESOLVED | ESCALATED.

(** [AgentState].  The input fields and the log come with the payload handed
    to the app (the caller initialises the log); the remaining fields are
    "added during workflow", so they are absent until a stage assigns them and
    reading one before that raises [KeyError]. *)
Record AgentState : Type := mkState {
  customer_name : string;
  email : string;
  query : string;
  priority : Z;
  ticket_id : string;
  log : list string;
  structured_data : option dict;
  enriched_data : option dict;
  retrieved_kb_article : option dict;
  decision : option dict;
  final_response : option string;
  final_status : option FinalStatus;
}.

(** [state['log'].append(m)] and the five assignments [state[k] = v]. *)
Definition log_append (m : string) (st : AgentState) : AgentState :=
  mkState (customer_name st) (email st) (query st) (priority st) (ticket_id st)
    (log st ++ [m]) (structured_data st) (enriched_data st)
    (retrieved_kb_article st) (decision st) (final_response st) (final_status st).

Definition set_structured_data (d : dict) (st : AgentState) : AgentState :=
  mkState (customer_name st) (email st) (query st) (priority st) (ticket_id st)
    (log st) (Some d) (enriched_data st)
    (retrieved_kb_article st) (decision st) (final_response st) (final_status st).

Definition set_enriched_data (d : dict) (st : AgentState) : AgentState :=
  mkState (customer_name st) (email st) (query st) (priority st) (ticket_id st)
    (log st) (structured_data st) (Some d)
    (retrieved_kb_article st) (decision st) (final_response st) (final_status st).

Definition set_retrieved_kb_article (d : dict) (st : AgentState) : AgentState :=
  mkState (customer_name st) (email st) (query st) (priority st) (ticket_id st)
    (log st) (structured_data st) (enriched_data st)
    (Some d) (decision st) (final_response st) (final_status st).

Definition set_decision (d : dict) (st : AgentState) : AgentState :=
  mkState (customer_name st) (email st) (query st) (priority st) (ticket_id st)
    (log st) (structured_data st) (enriched_data st)
    (retrieved_kb_article st) (Some d) (final_response st) (final_status st).

Definition set_final_response (r : string) (st : AgentState) : AgentState :=
  mkState (customer_name st) (email st) (query st) (priority st) (ticket_id st)
    (log st) (structured_data st) (enriched_data st)
    (retrieved_kb_article st) (decision st) (Some r) (final_status st).

Definition set_final_status (f : FinalStatus) (st : AgentState) : AgentState :=
  mkState (customer_name st) (email st) (query st) (priority st) (ticket_id st)
    (log st) (structured_data st) (enriched_data st)
    (retrieved_kb_article st) (decision st) (final_response st) (Some f).

(** ** The monad of stage bodies

    A stage mutates the state dictionary in place and may raise part-way: the
    state returned next to [Raise e] is the dictionary as the statements
    before the raise left it.  Output on the console is not modelled. *)
Definition M (A : Type) : Type := AgentState → AgentState * result A.

#[export] Instance M_ret : MRet M := λ A a st, (st, Ok a).

#[export] Instance M_bind : MBind M := λ A B k m st,
  match m st with
  | (st', Ok a) => k a st'
  | (st', Raise e) => (st', Raise e)
  end.

(** A client call, or any computation that does not touch the state. *)
Definition call {A} (r : result A) : M A := λ st, (st, r).

(** [state[key]] for a field of the payload, always there. *)
Definition get {A} (field : AgentState → A) : M A := λ st, (st, Ok (field st)).

(** [state[key]] for a field added during the workflow. *)
Definition read {A} (key : string) (field : AgentState → option A) : M A :=
  λ st, match field st with
        | Some a => (st, Ok a)
        | None => (st, Raise (KeyError key))
        end.

Definition modify (f : AgentState → AgentState) : M unit := λ st, (f st, Ok tt).

Definition Stage : Type := M unit.

(** ** Capability clients *)

(** The methods of [CommonMcpClient]: abilities without external data. *)
Record CommonMcp : Type := {
  parse_request_text : string → result dict;
  normalize_fields : string → result (gmap string string);
  add_flags_calculations : Z → string → result dict;
  solution_evaluation : dict → result (gmap string Z);
  response_generation : string → string → dict → result (gmap string string);
}.

(** The methods of [AtlasMcpClient]: abilities that reach external systems.
    [knowledge_base_search] receives whatever the state holds under
    [extracted_entities]. *)
Record AtlasMcp : Type := {
  extract_entities : string → result (gmap string (list string));
  enrich_records : string → result dict;
  knowledge_base_search : value → result (gmap string dict);
  escalation_decision : string → result (gmap string string);
  update_ticket : string → string → string → result (gmap string string);
  close_ticket : string → result (gmap string string);
  trigger_notifications : string → string → result (gmap string string);
  execute_api_calls : string → string → result (gmap string string);
}.

(** [{**a, **b}]: the keys of [b] win. *)
Definition merge_dict {V} (a b : gmap string V) : gmap string V := b ∪ a.

Definition str_values (d : gmap string string) : dict := VStr <$> d.
Definition list_values (d : gmap string (list string)) : dict :=
  (λ l, VList (VStr <$> l)) <$> d.

Section SimulatedClients.

(** [str(v)] of a value that is not a string, as the interpreter prints it
    inside an f-string.  Number and list formatting belong to the Python
    runtime; nothing below depends on the digits it produces. *)
Variable py_repr : value → string.

Definition format_value (v : value) : string :=
  match v with
  | VStr s => s
  | _ => py_repr v
  end.

Definition CommonMcpClient : CommonMcp := {|
  parse_request_text query :=
    if contains "error code" (lower query)
    then Ok (<["intent" := VStr "technical_support"]>
               (<["structured_query" := VStr query]> ∅))
    else Ok (<["intent" := VStr "general_inquiry"]>
               (<["structured_query" := VStr query]> ∅));
  normalize_fields ticket_id :=
    Ok (<["normalized_ticket_id" := upper (strip ticket_id)]> ∅);
  add_flags_calculations priority query :=
    let is_urgent := contains "urgent" (lower query) || (3 <? priority)%Z in
    match (if is_urgent
           then match int_times_float priority one_and_a_half with
                | Ok f => Ok (VFloat f)
                | Raise e => Raise e
                end
           else Ok (VInt priority)) with
    | Ok calculated =>
        Ok (<["is_urgent_flag" := VBool is_urgent]>
              (<["calculated_priority" := calculated]> ∅))
    | Raise e => Raise e
    end;
  solution_evaluation kb_article :=
    match value_lower (default (VStr "") (kb_article !! "title")) with
    | Ok title =>
        let score := if contains "error code" title then 95%Z else 75%Z in
        Ok (<["solution_score" := score]> ∅)
    | Raise e => Raise e
    end;
  response_generation customer_name query kb_article :=
    match subscript kb_article "title" with
    | Ok title =>
        match subscript kb_article "summary" with
        | Ok summary =>
            let response :=
              "Hello " +:+ customer_name +:+ "," +:+ nl +:+ nl +:+
              "Thank you for contacting us about your query: '" +:+
              take_string 30 query +:+ "...'." +:+ nl +:+ nl +:+
              "Based on our knowledge base, here is a relevant article that might help: '" +:+
              format_value title +:+ "'." +:+ nl +:+ nl +:+
              "Summary: " +:+ format_value summary +:+ nl +:+ nl +:+
              "Regards," +:+ nl +:+ "Langie Support Agent" in
            Ok (<["generated_response" := response]> ∅)
        | Raise e => Raise e
        end
    | Raise e => Raise e
    end;
|}.

End SimulatedClients.

Definition AtlasMcpClient : AtlasMcp :=
  let trigger (email message : string) : result (gmap string string) :=
    Ok (<["notification_status" := "SENT"]> ∅) in
  {|
    extract_entities query :=
      let entities : list string := [] in
      let entities :=
        if contains "Pro-Widget X" query
        then entities ++ ["Pro-Widget X"] else entities in
      let entities :=
        if contains "error code 42" query
        then entities ++ ["error code 42"] else entities in
      Ok (<["extracted_entities" := entities]> ∅);
    enrich_records email :=
      Ok (<["customer_sla" := VStr "Gold"]>
            (<["historical_ticket_count" := VInt 5]> ∅));
    knowledge_base_search entities :=
      match str_in_value "error code 42" entities with
      | Ok true =>
          Ok (<["retrieved_kb_article" :=
                  <["id" := VStr "KB-123"]>
                    (<["title" := VStr "Resolving Error Code 42 on Pro-Widget X"]>
                       (<["summary" := VStr "This error is typically caused by a firmware mismatch. To resolve, please follow the steps to update the firmware..."]> ∅))]> ∅)
      | Ok false => Ok (<["retrieved_kb_article" := ∅]> ∅)
      | Raise e => Raise e
      end;
    escalation_decision ticket_id :=
      Ok (<["escalation_status" := "Assigned to Tier 2 Support"]> ∅);
    update_ticket ticket_id status assignee :=
      Ok (<["ticket_update_status" := "SUCCESS"]> ∅);
    close_ticket ticket_id :=
      Ok (<["ticket_close_status" := "SUCCESS"]> ∅);
    trigger_notifications := trigger;
    execute_api_calls email message := trigger email message;
  |}.

(** ** Stage implementations *)

Section Stages.

(** The clients each stage instantiates; the source builds
    [CommonMcpClient()] and [AtlasMcpClient()] on the spot. *)
Variable common_client : CommonMcp.
Variable atlas_client : AtlasMcp.

Definition stage_intake : Stage :=
  let log_message := "✅ STAGE: INTAKE - Payload accepted." in
  modify (log_append log_message).

Definition stage_understand : Stage :=
  let log_message := "✅ STAGE: UNDERSTAND" in
  modify (log_append log_message) ;;
  q ← get query ;
  parsed_result ← call (parse_request_text common_client q) ;
  q' ← get query ;
  entities_result ← call (extract_entities atlas_client q') ;
  modify (set_structured_data
            (merge_dict parsed_result (list_values entities_result))).

Definition stage_prepare : Stage :=
  let log_message := "✅ STAGE: PREPARE" in
  modify (log_append log_message) ;;
  tid ← get ticket_id ;
  normalized_result ← call (normalize_fields common_client tid) ;
  mail ← get email ;
  enriched_result ← call (enrich_records atlas_client mail) ;
  prio ← get priority ;
  q ← get query ;
  flags_result ← call (add_flags_calculations common_client prio q) ;
  modify (set_enriched_data
            (merge_dict (merge_dict (str_values normalized_result) enriched_result)
                        flags_result)).

Definition stage_retrieve : Stage :=
  let log_message := "✅ STAGE: RETRIEVE" in
  modify (log_append log_message) ;;
  sd ← read "structured_data" structured_data ;
  entities ← call (subscript sd "extracted_entities") ;
  kb_result ← call (knowledge_base_search atlas_client entities) ;
  article ← call (subscript kb_result "retrieved_kb_article") ;
  modify (set_retrieved_kb_article article).

Definition decision_log (score : Z) (decision_text : string) : string :=
  "  Decision Logic: Score is " +:+ str_of_int score +:+ ". " +:+ decision_text.

Definition stage_decide : Stage :=
  let log_message := "✅ STAGE: DECIDE" in
  modify (log_append log_message) ;;
  article ← read "retrieved_kb_article" retrieved_kb_article ;
  score_result ← call (solution_evaluation common_client article) ;
  score ← call (subscript score_result "solution_score") ;
  decision_text ←
    (if (90 <=? score)%Z then
       modify (set_decision (<["score" := VInt score]>
                               (<["outcome" := VStr "CREATE_RESPONSE"]> ∅))) ;;
       mret "Sufficient solution found. Proceed to create response."
     else
       tid ← get ticket_id ;
       escalation_result ← call (escalation_decision atlas_client tid) ;
       modify (set_decision
                 (merge_dict (<["score" := VInt score]>
                                (<["outcome" := VStr "ESCALATE"]> ∅))
                             (str_values escalation_result))) ;;
       mret "Solution score is low. Escalating to human agent.") ;
  modify (log_append (decision_log score decision_text)).

Definition stage_create : Stage :=
  let log_message := "✅ STAGE: CREATE" in
  modify (log_append log_message) ;;
  name ← get customer_name ;
  q ← get query ;
  article ← read "retrieved_kb_article" retrieved_kb_article ;
  response_result ← call (response_generation common_client name q article) ;
  response ← call (subscript response_result "generated_response") ;
  modify (set_final_response response) ;;
  modify (set_final_status RESOLVED).

Definition stage_update : Stage :=
  let log_message := "✅ STAGE: UPDATE" in
  modify (log_append log_message) ;;
  tid ← get ticket_id ;
  _ ← call (update_ticket atlas_client tid "Escalated" "Tier 2 Support") ;
  modify (set_final_response "This ticket has been escalated for human review.") ;;
  modify (set_final_status ESCALATED).

Definition stage_do : Stage :=
  let log_message := "✅ STAGE: DO" in
  modify (log_append log_message) ;;
  mail ← get email ;
  message ← read "final_response" final_response ;
  _ ← call (execute_api_calls atlas_client mail message) ;
  mret tt.

Definition stage_close : Stage :=
  let log_message := "✅ STAGE: CLOSE" in
  modify (log_append log_message) ;;
  tid ← get ticket_id ;
  _ ← call (close_ticket atlas_client tid) ;
  mret tt.

Definition stage_complete : Stage :=
  let log_message := "✅ STAGE: COMPLETE - Workflow finished." in
  modify (log_append log_message).

End Stages.

(** ** Conditional logic *)

(** LangGraph's [END] marker. *)
Definition END : string := "__end__".

(** A router inspects the state and returns a route label; it may raise on a
    missing key but assigns nothing. *)
Definition Router : Type := AgentState → result string.

Definition route_after_decision : Router := λ state,
  match decision state with
  | None => Raise (KeyError "decision")
  | Some d =>
      match subscript d "outcome" with
      | Raise e => Raise e
      | Ok outcome =>
          if value_eq_str outcome "CREATE_RESPONSE" then Ok "CREATE" else Ok "UPDATE"
      end
  end.

Definition route_after_do : Router := λ state,
  match final_status state with
  | None => Raise (KeyError "final_status")
  | Some RESOLVED => Ok "CLOSE"
  | Some ESCALATED => Ok END
  end.

(** ** Graph assembly *)

(** First binding of a name in an association list. *)
Fixpoint assoc {V} (name : string) (l : list (string * V)) : option V :=
  match l with
  | [] => None
  | (k, v) :: l' => if String.eqb k name then Some v else assoc name l'
  end.

(** What the builder calls record: named nodes, the entry point, static
    edges, and conditional edges (source, router, table from label to
    target). *)
Record StateGraph : Type := {
  nodes : list (string * Stage);
  entry_point : option string;
  edges : list (string * string);
  branches : list (string * (Router * list (string * string)));
}.

Definition new_graph : StateGraph :=
  {| nodes := []; entry_point := None; edges := []; branches := [] |}.

Definition add_node (name : string) (stage : Stage) (g : StateGraph) : StateGraph :=
  {| nodes := nodes g ++ [(name, stage)]; entry_point := entry_point g;
     edges := edges g; branches := branches g |}.

Definition set_entry_point (name : string) (g : StateGraph) : StateGraph :=
  {| nodes := nodes g; entry_point := Some name;
     edges := edges g; branches := branches g |}.

Definition add_edge (source target : string) (g : StateGraph) : StateGraph :=
  {| nodes := nodes g; entry_point := entry_point g;
     edges := edges g ++ [(source, target)]; branches := branches g |}.

Definition add_conditional_edges (source : string) (router : Router)
    (path_map : list (string * string)) (g : StateGraph) : StateGraph :=
  {| nodes := nodes g; entry_point := entry_point g; edges := edges g;
     branches := branches g ++ [(source, (router, path_map))] |}.

Section Workflow.

Variable common_client : CommonMcp.
Variable atlas_client : AtlasMcp.

Definition workflow : StateGraph :=
  let workflow := new_graph in
  let workflow := add_node "INTAKE" stage_intake workflow in
  let workflow := add_node "UNDERSTAND" (stage_understand common_client atlas_client) workflow in
  let workflow := add_node "PREPARE" (stage_prepare common_client atlas_client) workflow in
  let workflow := add_node "RETRIEVE" (stage_retrieve atlas_client) workflow in
  let workflow := add_node "DECIDE" (stage_decide common_client atlas_client) workflow in
  let workflow := add_node "CREATE" (stage_create common_client) workflow in
  let workflow := add_node "UPDATE" (stage_update atlas_client) workflow in
  let workflow := add_node "DO" (stage_do atlas_client) workflow in
  let workflow := add_node "CLOSE" (stage_close atlas_client) workflow in
  let workflow := add_node "COMPLETE" stage_complete workflow in
  let workflow := set_entry_point "INTAKE" workflow in
  let workflow := add_edge "INTAKE" "UNDERSTAND" workflow in
  let workflow := add_edge "UNDERSTAND" "PREPARE" workflow in
  let workflow := add_edge "PREPARE" "RETRIEVE" workflow in
  let workflow := add_edge "RETRIEVE" "DECIDE" workflow in
  let workflow :=
    add_conditional_edges "DECIDE" route_after_decision
      [("CREATE", "CREATE"); ("UPDATE", "UPDATE")] workflow in
  let workflow := add_edge "CREATE" "DO" workflow in
  let workflow := add_edge "UPDATE" "DO" workflow in
  let workflow :=
    add_conditional_edges "DO" route_after_do
      [("CLOSE", "CLOSE"); (END, END)] workflow in
  let workflow := add_edge "CLOSE" "COMPLETE" workflow in
  let workflow := add_edge "COMPLETE" END workflow in
  workflow.

(** [stage_ask] and [stage_wait] have empty bodies and are not added to the
    graph. *)

End Workflow.

(** ** Running a graph *)

(** How a run can fail: an exception escaping a stage or a router, a route
    label without an entry in the node's table, a node or edge the graph does
    not have, or the step limit of the compiled app. *)
Inductive WorkflowError : Type :=
  | StageError (e : exn)
  | UnhandledRouteLabel (label : string)
  | ConfigurationError (name : string)
  | RecursionLimit.

(** The outcome of a run, with the state dictionary as the last executed
    stage left it. *)
Inductive RunResult : Type :=
  | Completed (final : AgentState)
  | Failed (err : WorkflowError) (partial : AgentState).

Definition result_state (r : RunResult) : AgentState :=
  match r with
  | Completed st => st
  | Failed _ st => st
  end.

(** The source hands the graph to the graph library ([workflow.compile()],
    [app.invoke]); [agent.py] itself has no run loop.  On a graph like this
    one, where every node has one successor, the compiled app calls the stage
    of the current node and then resolves that node's edge: a node with
    conditional edges asks its router for a label and looks the label up in
    the table, any other node follows its static edge.  (These are steps (b)
    to (d) of the spec's §4.1.) *)
Definition next_target (g : StateGraph) (n : string) (st : AgentState)
    : WorkflowError + string :=
  match assoc n (branches g) with
  | Some (router, path_map) =>
      match router st with
      | Raise e => inl (StageError e)
      | Ok label =>
          match assoc label path_map with
          | Some target => inr target
          | None => inl (UnhandledRouteLabel label)
          end
      end
  | None =>
      match assoc n (edges g) with
      | Some target => inr target
      | None => inl (ConfigurationError n)
      end
  end.

(** The run from node [n], for at most [fuel] stage executions.  The first
    component lists the nodes whose stage function was called, in order.
    Nothing is checked before a stage is called: [add_node] registers a bare
    function and no stage declares a requirement. *)
Fixpoint run_from (g : StateGraph) (fuel : nat) (n : string) (st : AgentState)
    : list string * RunResult :=
  match fuel with
  | O => ([], Failed RecursionLimit st)
  | S fuel' =>
      match assoc n (nodes g) with
      | None => ([], Failed (ConfigurationError n) st)
      | Some stage =>
          match stage st with
          | (st', Raise e) => ([n], Failed (StageError e) st')
          | (st', Ok _) =>
              match next_target g n st' with
              | inl err => ([n], Failed err st')
              | inr target =>
                  if String.eqb target END then ([n], Completed st')
                  else let (trace, r) := run_from g fuel' target st' in
                       (n :: trace, r)
              end
          end
      end
  end.

(** The step limit [invoke] applies when the caller passes none. *)
Definition recursion_limit : nat := 25.

Definition invoke (g : StateGraph) (st : AgentState) : list string * RunResult :=
  match entry_point g with
  | Some n => run_from g recursion_limit n st
  | None => ([], Failed (ConfigurationError "entry point") st)
  end.

(** The same loop as a relation, without a step limit: [exec g n st trace r]
    when the run from node [n] on state [st] calls the stages of [trace] and
    ends in [r]. *)
Inductive exec (g : StateGraph) : string → AgentState → list string → RunResult → Prop :=
  | exec_unknown n st :
      assoc n (nodes g) = None →
      exec g n st [] (Failed (ConfigurationError n) st)
  | exec_raise n stage st st' e :
      assoc n (nodes g) = Some stage →
      stage st = (st', Raise e) →
      exec g n st [n] (Failed (StageError e) st')
  | exec_stuck n stage st st' u err :
      assoc n (nodes g) = Some stage →
      stage st = (st', Ok u) →
      next_target g n st' = inl err →
      exec g n st [n] (Failed err st')
  | exec_end n stage st st' u :
      assoc n (nodes g) = Some stage →
      stage st = (st', Ok u) →
      next_target g n st' = inr END →
      exec g n st [n] (Completed st')
  | exec_next n stage st st' u target trace r :
      assoc n (nodes g) = Some stage →
      stage st = (st', Ok u) →
      next_target g n st' = inr target →
      target ≠ END →
      exec g target st' trace r →
      exec g n st (n :: trace) r.

(** [app = workflow.compile()] with the clients of the source. *)
Definition app (py_repr : value → string) : AgentState → list string * RunResult :=
  invoke (workflow (CommonMcpClient py_repr) AtlasMcpClient).

(** The run resumed at a given node, as the engine continues it. *)
Definition app_from (py_repr : value → string) (n : string) (st : AgentState)
    : list string * RunResult :=
  run_from (workflow (CommonMcpClient py_repr) AtlasMcpClient) recursion_limit n st.

(** The payload of the demo run. *)
Definition sample_input : AgentState := {|
  customer_name := "Alice Wonder";
  email := "alice.w@example.com";
  query := "Hi, my Pro-Widget X is showing error code 42. I've tried restarting it but it didn't help. Can you assist?";
  priority := 4;
  ticket_id := "TKT-78901";
  log := [];
  structured_data := None;
  enriched_data := None;
  retrieved_kb_article := None;
  decision := None;
  final_response := None;
  final_status := None;
|}.

(** The two complete paths through the workflow. *)
Definition resolved_path : list string :=
  ["INTAKE"; "UNDERSTAND"; "PREPARE"; "RETRIEVE"; "DECIDE";
   "CREATE"; "DO"; "CLOSE"; "COMPLETE"].

Definition escalated_path : list string :=
  ["INTAKE"; "UNDERSTAND"; "PREPARE"; "RETRIEVE"; "DECIDE"; "UPDATE"; "DO"].

(** The longest number of edges from a node to [END]; every edge of the
    workflow leads to a node of smaller rank. *)
Definition node_rank (n : string) : nat :=
  if String.eqb n "INTAKE" then 9
  else if String.eqb n "UNDERSTAND" then 8
  else if String.eqb n "PREPARE" then 7
  else if String.eqb n "RETRIEVE" then 6
  else if String.eqb n "DECIDE" then 5
  else if String.eqb n "CREATE" then 4
  else if String.eqb n "UPDATE" then 4
  else if String.eqb n "DO" then 3
  else if String.eqb n "CLOSE" then 2
  else if String.eqb n "COMPLETE" then 1
  else 0.

(** The entries a complete run appends, given the decision line DECIDE
    wrote. *)
Definition resolved_log (decision_line : string) : list string :=
  ["✅ STAGE: INTAKE - Payload accepted."; "✅ STAGE: UNDERSTAND";
   "✅ STAGE: PREPARE"; "✅ STAGE: RETRIEVE"; "✅ STAGE: DECIDE"; decision_line;
   "✅ STAGE: CREATE"; "✅ STAGE: DO"; "✅ STAGE: CLOSE";
   "✅ STAGE: COMPLETE - Workflow finished."].

Definition escalated_log (decision_line : string) : list string :=
  ["✅ STAGE: INTAKE - Payload accepted."; "✅ STAGE: UNDERSTAND";
   "✅ STAGE: PREPARE"; "✅ STAGE: RETRIEVE"; "✅ STAGE: DECIDE"; decision_line;
   "✅ STAGE: UPDATE"; "✅ STAGE: DO"].

(** ** Example inputs *)

(** A rendering of non-string values for the example runs. *)
Definition demo_repr (v : value) : string := "<value>".

(** A deterministic test double: the common client of the source with a
    scorer that answers a fixed score. *)
Definition fixed_score_client (score : Z) : CommonMcp := {|
  parse_request_text := parse_request_text (CommonMcpClient demo_repr);
  normalize_fields := normalize_fields (CommonMcpClient demo_repr);
  add_flags_calculations := add_flags_calculations (CommonMcpClient demo_repr);
  solution_evaluation kb_article := Ok (<["solution_score" := score]> ∅);
  response_generation := response_generation (CommonMcpClient demo_repr);
|}.

(** The demo payload as RETRIEVE leaves it when the search finds nothing. *)
Definition sample_without_article : AgentState :=
  set_retrieved_kb_article ∅ sample_input.

(** The demo payload as UNDERSTAND leaves it when the query names no entity. *)
Definition sample_without_entities : AgentState :=
  set_structured_data (<["extracted_entities" := VList []]> ∅) sample_input.

(** The demo payload after CREATE and after UPDATE. *)
Definition sample_resolved : AgentState :=
  set_final_status RESOLVED (set_final_response "Hello" sample_input).

Definition sample_escalated : AgentState :=
  set_final_status ESCALATED
    (set_final_response "This ticket has been escalated for human review."
       sample_input).

(** The state the demo run ends in. *)
Definition demo_final : AgentState :=
  result_state (app demo_repr sample_input).2.

(** A payload whose query names no known product or error code. *)
Definition sample_general : AgentState := {|
  customer_name := "Bob";
  email := "bob@example.com";
  query := "Where can I download my invoice?";
  priority := 2;
  ticket_id := " tkt-5 ";
  log := [];
  structured_data := None;
  enriched_data := None;
  retrieved_kb_article := None;
  decision := None;
  final_response := None;
  final_status := None;
|}.

(** The same payload with a priority no float can hold. *)
Definition sample_huge_priority : AgentState := {|
  customer_name := "Bob";
  email := "bob@example.com";
  query := "Where can I download my invoice?";
  priority := 2 ^ 1024;
  ticket_id := " tkt-5 ";
  log := [];
  structured_data := None;
  enriched_data := None;
  retrieved_kb_article := None;
  decision := None;
  final_response := None;
  final_status := None;
|}.

(** ** Notions for the properties of whole runs *)

(** A string that does not start with whitespace. *)
Definition starts_clean (s : string) : bool :=
  match s with
  | EmptyString => true
  | String c _ => negb (is_space c)
  end.

(** The one article of the simulated knowledge base. *)
Definition kb_123 : dict :=
  <["id" := VStr "KB-123"]>
    (<["title" := VStr "Resolving Error Code 42 on Pro-Widget X"]>
       (<["summary" := VStr "This error is typically caused by a firmware mismatch. To resolve, please follow the steps to update the firmware..."]> ∅)).

(** A float that is neither an infinity nor a NaN. *)
Definition is_finite (f : spec_float) : bool :=
  match f with
  | S754_zero _ | S754_finite _ _ _ => true
  | _ => false
  end.

(** The payload fields as one value. *)
Definition input_fields (st : AgentState) : string * string * string * Z * string :=
  (customer_name st, email st, query st, priority st, ticket_id st).

(** The names under which the workflow registers a stage. *)
Definition declared_nodes : list string :=
  ["INTAKE"; "UNDERSTAND"; "PREPARE"; "RETRIEVE"; "DECIDE";
   "CREATE"; "UPDATE"; "DO"; "CLOSE"; "COMPLETE"].

(** What is known of a run that failed in a stage: the exception, the state
    it left, the node whose stage raised it (the last of the trace), and that
    stage's input. *)
Definition failed_in (g : StateGraph) (trace : list string) (r : RunResult) : Prop :=
  ∃ e partial n stage st_n,
    r = Failed (StageError e) partial ∧
    last trace = Some n ∧
    assoc n (nodes g) = Some stage ∧
    stage st_n = (partial, Raise e).

(** Two states that differ at most in their log. *)
Definition same_but_log (a b : AgentState) : Prop :=
  input_fields a = input_fields b ∧
  structured_data a = structured_data b ∧
  enriched_data a = enriched_data b ∧
  retrieved_kb_article a = retrieved_kb_article b ∧
  decision a = decision b ∧
  final_response a = final_response b ∧
  final_status a = final_status b.

(** Two states that agree on the payload and on the workflow fields that the
    nodes of rank above [k] assign: [structured_data] from rank 7 down,
    [enriched_data] from 6, [retrieved_kb_article] from 5, [decision] from 4,
    [final_response] and [final_status] from 3. *)
Definition agree_at (k : nat) (a b : AgentState) : Prop :=
  input_fields a = input_fields b ∧
  ((k ≤ 7)%nat → structured_data a = structured_data b) ∧
  ((k ≤ 6)%nat → enriched_data a = enriched_data b) ∧
  ((k ≤ 5)%nat → retrieved_kb_article a = retrieved_kb_article b) ∧
  ((k ≤ 4)%nat → decision a = decision b) ∧
  ((k ≤ 3)%nat → final_response a = final_response b ∧
                 final_status a = final_status b).

(** Two runs that end the same way: both complete, or both fail with the
    same error. *)
Definition same_outcome (r1 r2 : RunResult) : Prop :=
  match r1, r2 with
  | Completed _, Completed _ => True
  | Failed e1 _, Failed e2 _ => e1 = e2
  | _, _ => False
  end.

(** The demo payload with an earlier log. *)
Definition sample_logged : AgentState := log_append "earlier entry" sample_input.

(** A string of ASCII characters only. *)
Fixpoint is_ascii (s : string) : bool :=
  match s with
  | EmptyString => true
  | String c s' => (nat_of_ascii c <? 128)%nat && is_ascii s'
  end.



(** ** Payloads with missing input fields

    The state dictionary as the app receives it from a caller who may have
    left input keys out: every input field can be absent, and a stage that
    subscripts an absent one raises [KeyError] there.  The stages, routers,
    graph and run loop are those of the sections above, read again over this
    state; the log is initialised by the caller. *)
Module Raw.

Record State : Type := mkState {
  customer_name : option string;
  email : option string;
  query : option string;
  priority : option Z;
  ticket_id : option string;
  log : list string;
  structured_data : option dict;
  enriched_data : option dict;
  retrieved_kb_article : option dict;
  decision : option dict;
  final_response : option string;
  final_status : option FinalStatus;
}.

Definition log_append (m : string) (st : State) : State :=
  mkState (customer_name st) (email st) (query st) (priority st) (ticket_id st)
    (log st ++ [m]) (structured_data st) (enriched_data st)
    (retrieved_kb_article st) (decision st) (final_response st) (final_status st).

Definition set_structured_data (d : dict) (st : State) : State :=
  mkState (customer_name st) (email st) (query st) (priority st) (ticket_id st)
    (log st) (Some d) (enriched_data st)
    (retrieved_kb_article st) (decision st) (final_response st) (final_status st).

Definition set_enriched_data (d : dict) (st : State) : State :=
  mkState (customer_name st) (email st) (query st) (priority st) (ticket_id st)
    (log st) (structured_data st) (Some d)
    (retrieved_kb_article st) (decision st) (final_response st) (final_status st).

Definition set_retrieved_kb_article (d : dict) (st : State) : State :=
  mkState (customer_name st) (email st) (query st) (priority st) (ticket_id st)
    (log st) (structured_data st) (enriched_data st)
    (Some d) (decision st) (final_response st) (final_status st).

Definition set_decision (d : dict) (st : State) : State :=
  mkState (customer_name st) (email st) (query st) (priority st) (ticket_id st)
    (log st) (structured_data st) (enriched_data st)
    (retrieved_kb_article st) (Some d) (final_response st) (final_status st).

Definition set_final_response (r : string) (st : State) : State :=
  mkState (customer_name st) (email st) (query st) (priority st) (ticket_id st)
    (log st) (structured_data st) (enriched_data st)
    (retrieved_kb_article st) (decision st) (Some r) (final_status st).

Definition set_final_status (f : FinalStatus) (st : State) : State :=
  mkState (customer_name st) (email st) (query st) (priority st) (ticket_id st)
    (log st) (structured_data st) (enriched_data st)
    (retrieved_kb_article st) (decision st) (final_response st) (Some f).

Definition M (A : Type) : Type := State → State * result A.

#[export] Instance M_ret : MRet M := λ A a st, (st, Ok a).

#[export] Instance M_bind : MBind M := λ A B k m st,
  match m st with
  | (st', Ok a) => k a st'
  | (st', Raise e) => (st', Raise e)
  end.

Definition call {A} (r : result A) : M A := λ st, (st, r).

(** [state[key]]: every key can be absent. *)
Definition read {A} (key : string) (field : State → option A) : M A :=
  λ st, match field st with
        | Some a => (st, Ok a)
        | None => (st, Raise (KeyError key))
        end.

Definition modify (f : State → State) : M unit := λ st, (f st, Ok tt).

Definition Stage : Type := M unit.

Section Stages.

Variable common_client : CommonMcp.
Variable atlas_client : AtlasMcp.

Definition stage_intake : Stage :=
  let log_message := "✅ STAGE: INTAKE - Payload accepted." in
  modify (log_append log_message).

Definition stage_understand : Stage :=
  let log_message := "✅ STAGE: UNDERSTAND" in
  modify (log_append log_message) ;;
  q ← read "query" query ;
  parsed_result ← call (parse_request_text common_client q) ;
  q' ← read "query" query ;
  entities_result ← call (extract_entities atlas_client q') ;
  modify (set_structured_data
            (merge_dict parsed_result (list_values entities_result))).

Definition stage_prepare : Stage :=
  let log_message := "✅ STAGE: PREPARE" in
  modify (log_append log_message) ;;
  tid ← read "ticket_id" ticket_id ;
  normalized_result ← call (normalize_fields common_client tid) ;
  mail ← read "email" email ;
  enriched_result ← call (enrich_records atlas_client mail) ;
  prio ← read "priority" priority ;
  q ← read "query" query ;
  flags_result ← call (add_flags_calculations common_client prio q) ;
  modify (set_enriched_data
            (merge_dict (merge_dict (str_values normalized_result) enriched_result)
                        flags_result)).

Definition stage_retrieve : Stage :=
  let log_message := "✅ STAGE: RETRIEVE" in
  modify (log_append log_message) ;;
  sd ← read "structured_data" structured_data ;
  entities ← call (subscript sd "extracted_entities") ;
  kb_result ← call (knowledge_base_search atlas_client entities) ;
  article ← call (subscript kb_result "retrieved_kb_article") ;
  modify (set_retrieved_kb_article article).

Definition stage_decide : Stage :=
  let log_message := "✅ STAGE: DECIDE" in
  modify (log_append log_message) ;;
  article ← read "retrieved_kb_article" retrieved_kb_article ;
  score_result ← call (solution_evaluation common_client article) ;
  score ← call (subscript score_result "solution_score") ;
  decision_text ←
    (if (90 <=? score)%Z then
       modify (set_decision (<["score" := VInt score]>
                               (<["outcome" := VStr "CREATE_RESPONSE"]> ∅))) ;;
       mret "Sufficient solution found. Proceed to create response."
     else
       tid ← read "ticket_id" ticket_id ;
       escalation_result ← call (escalation_decision atlas_client tid) ;
       modify (set_decision
                 (merge_dict (<["score" := VInt score]>
                                (<["outcome" := VStr "ESCALATE"]> ∅))
                             (str_values escalation_result))) ;;
       mret "Solution score is low. Escalating to human agent.") ;
  modify (log_append (decision_log score decision_text)).

Definition stage_create : Stage :=
  let log_message := "✅ STAGE: CREATE" in
  modify (log_append log_message) ;;
  name ← read "customer_name" customer_name ;
  q ← read "query" query ;
  article ← read "retrieved_kb_article" retrieved_kb_article ;
  response_result ← call (response_generation common_client name q article) ;
  response ← call (subscript response_result "generated_response") ;
  modify (set_final_response response) ;;
  modify (set_final_status RESOLVED).

Definition stage_update : Stage :=
  let log_message := "✅ STAGE: UPDATE" in
  modify (log_append log_message) ;;
  tid ← read "ticket_id" ticket_id ;
  _ ← call (update_ticket atlas_client tid "Escalated" "Tier 2 Support") ;
  modify (set_final_response "This ticket has been escalated for human review.") ;;
  modify (set_final_status ESCALATED).

Definition stage_do : Stage :=
  let log_message := "✅ STAGE: DO" in
  modify (log_append log_message) ;;
  mail ← read "email" email ;
  message ← read "final_response" final_response ;
  _ ← call (execute_api_calls atlas_client mail message) ;
  mret tt.

Definition stage_close : Stage :=
  let log_message := "✅ STAGE: CLOSE" in
  modify (log_append log_message) ;;
  tid ← read "ticket_id" ticket_id ;
  _ ← call (close_ticket atlas_client tid) ;
  mret tt.

Definition stage_complete : Stage :=
  let log_message := "✅ STAGE: COMPLETE - Workflow finished." in
  modify (log_append log_message).

End Stages.

Definition Router : Type := State → result string.

Definition route_after_decision : Router := λ state,
  match decision state with
  | None => Raise (KeyError "decision")
  | Some d =>
      match subscript d "outcome" with
      | Raise e => Raise e
      | Ok outcome =>
          if value_eq_str outcome "CREATE_RESPONSE" then Ok "CREATE" else Ok "UPDATE"
      end
  end.

Definition route_after_do : Router := λ state,
  match final_status state with
  | None => Raise (KeyError "final_status")
  | Some RESOLVED => Ok "CLOSE"
  | Some ESCALATED => Ok END
  end.

Record StateGraph : Type := {
  nodes : list (string * Stage);
  entry_point : option string;
  edges : list (string * string);
  branches : list (string * (Router * list (string * string)));
}.

Definition new_graph : StateGraph :=
  {| nodes := []; entry_point := None; edges := []; branches := [] |}.

Definition add_node (name : string) (stage : Stage) (g : StateGraph) : StateGraph :=
  {| nodes := nodes g ++ [(name, stage)]; entry_point := entry_point g;
     edges := edges g; branches := branches g |}.

Definition set_entry_point (name : string) (g : StateGraph) : StateGraph :=
  {| nodes := nodes g; entry_point := Some name;
     edges := edges g; branches := branches g |}.

Definition add_edge (source target : string) (g : StateGraph) : StateGraph :=
  {| nodes := nodes g; entry_point := entry_point g;
     edges := edges g ++ [(source, target)]; branches := branches g |}.

Definition add_conditional_edges (source : string) (router : Router)
    (path_map : list (string * string)) (g : StateGraph) : StateGraph :=
  {| nodes := nodes g; entry_point := entry_point g; edges := edges g;
     branches := branches g ++ [(source, (router, path_map))] |}.

Section Workflow.

Variable common_client : CommonMcp.
Variable atlas_client : AtlasMcp.

Definition workflow : StateGraph :=
  let workflow := new_graph in
  let workflow := add_node "INTAKE" stage_intake workflow in
  let workflow := add_node "UNDERSTAND" (stage_understand common_client atlas_client) workflow in
  let workflow := add_node "PREPARE" (stage_prepare common_client atlas_client) workflow in
  let workflow := add_node "RETRIEVE" (stage_retrieve atlas_client) workflow in
  let workflow := add_node "DECIDE" (stage_decide common_client atlas_client) workflow in
  let workflow := add_node "CREATE" (stage_create common_client) workflow in
  let workflow := add_node "UPDATE" (stage_update atlas_client) workflow in
  let workflow := add_node "DO" (stage_do atlas_client) workflow in
  let workflow := add_node "CLOSE" (stage_close atlas_client) workflow in
  let workflow := add_node "COMPLETE" stage_complete workflow in
  let workflow := set_entry_point "INTAKE" workflow in
  let workflow := add_edge "INTAKE" "UNDERSTAND" workflow in
  let workflow := add_edge "UNDERSTAND" "PREPARE" workflow in
  let workflow := add_edge "PREPARE" "RETRIEVE" workflow in
  let workflow := add_edge "RETRIEVE" "DECIDE" workflow in
  let workflow :=
    add_conditional_edges "DECIDE" route_after_decision
      [("CREATE", "CREATE"); ("UPDATE", "UPDATE")] workflow in
  let workflow := add_edge "CREATE" "DO" workflow in
  let workflow := add_edge "UPDATE" "DO" workflow in
  let workflow :=
    add_conditional_edges "DO" route_after_do
      [("CLOSE", "CLOSE"); (END, END)] workflow in
  let workflow := add_edge "CLOSE" "COMPLETE" workflow in
  let workflow := add_edge "COMPLETE" END workflow in
  workflow.

End Workflow.

Inductive RunResult : Type :=
  | Completed (final : State)
  | Failed (err : WorkflowError) (partial : State).

Definition result_state (r : RunResult) : State :=
  match r with
  | Completed st => st
  | Failed _ st => st
  end.

Definition next_target (g : StateGraph) (n : string) (st : State)
    : WorkflowError + string :=
  match assoc n (branches g) with
  | Some (router, path_map) =>
      match router st with
      | Raise e => inl (StageError e)
      | Ok label =>
          match assoc label path_map with
          | Some target => inr target
          | None => inl (UnhandledRouteLabel label)
          end
      end
  | None =>
      match assoc n (edges g) with
      | Some target => inr target
      | None => inl (ConfigurationError n)
      end
  end.

(** Nothing is checked before a stage is called. *)
Fixpoint run_from (g : StateGraph) (fuel : nat) (n : string) (st : State)
    : list string * RunResult :=
  match fuel with
  | O => ([], Failed RecursionLimit st)
  | S fuel' =>
      match assoc n (nodes g) with
      | None => ([], Failed (ConfigurationError n) st)
      | Some stage =>
          match stage st with
          | (st', Raise e) => ([n], Failed (StageError e) st')
          | (st', Ok _) =>
              match next_target g n st' with
              | inl err => ([n], Failed err st')
              | inr target =>
                  if String.eqb target END then ([n], Completed st')
                  else let (trace, r) := run_from g fuel' target st' in
                       (n :: trace, r)
              end
          end
      end
  end.

Definition invoke (g : StateGraph) (st : State) : list string * RunResult :=
  match entry_point g with
  | Some n => run_from g recursion_limit n st
  | None => ([], Failed (ConfigurationError "entry point") st)
  end.

(** [app = workflow.compile()] with the clients of the source. *)
Definition app (py_repr : value → string) : State → list string * RunResult :=
  invoke (workflow (CommonMcpClient py_repr) AtlasMcpClient).

(** The run from node [n0] on state [st0] calls the stage of node [n] on
    state [st]. *)
Inductive reaches (g : StateGraph) : string → State → string → State → Prop :=
  | reaches_here n st : reaches g n st n st
  | reaches_next n stage st st' u target m st_m :
      assoc n (nodes g) = Some stage →
      stage st = (st', Ok u) →
      next_target g n st' = inr target →
      target ≠ END →
      reaches g target st' m st_m →
      reaches g n st m st_m.

End Raw.

(** A complete payload, as a state with optional input fields. *)
Definition raw_of_state (st : AgentState) : Raw.State :=
  Raw.mkState (Some (customer_name st)) (Some (email st)) (Some (query st))
    (Some (priority st)) (Some (ticket_id st)) (log st)
    (structured_data st) (enriched_data st) (retrieved_kb_article st)
    (decision st) (final_response st) (final_status st).

Definition raw_of_result (r : RunResult) : Raw.RunResult :=
  match r with
  | Completed st => Raw.Completed (raw_of_state st)
  | Failed err st => Raw.Failed err (raw_of_state st)
  end.

(** Whether a state holds a key, top-level or nested. *)
Definition has_key (key : string) (st : Raw.State) : bool :=
  if String.eqb key "customer_name" then bool_decide (is_Some (Raw.customer_name st))
  else if String.eqb key "email" then bool_decide (is_Some (Raw.email st))
  else if String.eqb key "query" then bool_decide (is_Some (Raw.query st))
  else if String.eqb key "priority" then bool_decide (is_Some (Raw.priority st))
  else if String.eqb key "ticket_id" then bool_decide (is_Some (Raw.ticket_id st))
  else if String.eqb key "structured_data.extracted_entities" then
    match Raw.structured_data st with
    | Some sd => bool_decide (is_Some (sd !! "extracted_entities"))
    | None => false
    end
  else if String.eqb key "retrieved_kb_article" then
    bool_decide (is_Some (Raw.retrieved_kb_article st))
  else if String.eqb key "final_response" then
    bool_decide (is_Some (Raw.final_response st))
  else false.

(** Modelled from the spec: the preconditions of the stage catalogue (§4.2),
    which the source declares nowhere: the state fields each stage needs
    present. *)
Definition required_keys (n : string) : list string :=
  if String.eqb n "UNDERSTAND" then ["query"]
  else if String.eqb n "PREPARE" then ["ticket_id"; "email"; "priority"; "query"]
  else if String.eqb n "RETRIEVE" then ["structured_data.extracted_entities"]
  else if String.eqb n "DECIDE" then ["retrieved_kb_article"]
  else if String.eqb n "CREATE" then ["customer_name"; "query"; "retrieved_kb_article"]
  else if String.eqb n "UPDATE" then ["ticket_id"]
  else if String.eqb n "DO" then ["email"; "final_response"]
  else if String.eqb n "CLOSE" then ["ticket_id"]
  else [].

(** Modelled from the spec: a stage's declared input requirements are met by
    the state (§4.1 (a)). *)
Definition requires (n : string) (st : Raw.State) : bool :=
  forallb (λ key, has_key key st) (required_keys n).

(** The demo payload sent without its query. *)
Definition payload_without_query : Raw.State := {|
  Raw.customer_name := Some "Alice Wonder";
  Raw.email := Some "alice.w@example.com";
  Raw.query := None;
  Raw.priority := Some 4%Z;
  Raw.ticket_id := Some "TKT-78901";
  Raw.log := [];
  Raw.structured_data := None;
  Raw.enriched_data := None;
  Raw.retrieved_kb_article := None;
  Raw.decision := None;
  Raw.final_response := None;
  Raw.final_status := None;
|}.

(** * Verification *)

(** ** Checks on concrete inputs *)

Example lower_example : lower "Error Code 42!" = "error code 42!".
Proof. reflexivity. Qed.

Example strip_upper_example : upper (strip " tkt-5 ") = "TKT-5".
Proof. reflexivity. Qed.

Example contains_example :
  contains "error code" "my error code 42" = true ∧
  contains "error code" "my error 42" = false ∧
  contains "" "" = true.
Proof. repeat split. Qed.

Example take_string_example : take_string 3 "abcdef" = "abc" ∧ take_string 9 "ab" = "ab".
Proof. split; reflexivity. Qed.

(** [4 * 1.5 == 6.0], and [2 ** 1024] is too large to convert. *)
Example int_times_float_example :
  int_times_float 4 one_and_a_half = Ok (S754_finite false 6755399441055744 (-50)) ∧
  int_times_float (2 ^ 1024) one_and_a_half
    = Raise (OverflowError "int too large to convert to float").
Proof. split; vm_compute; reflexivity. Qed.

(** The demo run: the resolved path, ten log entries, the article's title in
    the response. *)
Example demo_run :
  ∃ fin response,
    app demo_repr sample_input = (resolved_path, Completed fin) ∧
    log fin = resolved_log
      "  Decision Logic: Score is 95. Sufficient solution found. Proceed to create response." ∧
    final_status fin = Some RESOLVED ∧
    final_response fin = Some response ∧
    contains "Resolving Error Code 42 on Pro-Widget X" response = true.
Proof.
  eexists _, _. split; [vm_compute; reflexivity|].
  repeat split; vm_compute; reflexivity.
Qed.

(** A query without a known error code: score 75, escalation recorded in the
    decision, the log ends at DO. *)
Example escalated_run :
  ∃ fin d,
    app demo_repr sample_general = (escalated_path, Completed fin) ∧
    log fin = escalated_log
      "  Decision Logic: Score is 75. Solution score is low. Escalating to human agent." ∧
    final_status fin = Some ESCALATED ∧
    decision fin = Some d ∧
    d !! "escalation_status" = Some (VStr "Assigned to Tier 2 Support") ∧
    final_response fin = Some "This ticket has been escalated for human review.".
Proof.
  eexists _, _. split; [vm_compute; reflexivity|].
  repeat split; vm_compute; reflexivity.
Qed.

Lemma demo_run_result :
  invoke (workflow (CommonMcpClient demo_repr) AtlasMcpClient) sample_input
    = (resolved_path, Completed demo_final).
Proof. vm_compute. reflexivity. Qed.

(** PREPARE fails on an urgent ticket whose priority exceeds the floats. *)
Example overflow_run :
  app demo_repr sample_huge_priority =
    (["INTAKE"; "UNDERSTAND"; "PREPARE"],
     Failed (StageError (OverflowError "int too large to convert to float"))
       (log_append "✅ STAGE: PREPARE"
          (set_structured_data
             (<["intent" := VStr "general_inquiry"]>
                (<["structured_query" := VStr "Where can I download my invoice?"]>
                   (<["extracted_entities" := VList []]> ∅)))
             (log_append "✅ STAGE: UNDERSTAND"
                (log_append "✅ STAGE: INTAKE - Payload accepted."
                   sample_huge_priority))))).
Proof. vm_compute. reflexivity. Qed.

(** ** Evaluating stage bodies *)

#[local] Arguments String.eqb : simpl nomatch.
#[local] Arguments run_from : simpl never.

Ltac unfold_monad :=
  unfold mbind, M_bind, mret, M_ret, modify, get, read, call, subscript in *.

Ltac run_stage :=
  unfold_monad; simpl in *;
  repeat (case_match; simpl in *; simplify_eq; try done).

Section StageFacts.

Variable common_client : CommonMcp.
Variable atlas_client : AtlasMcp.

Lemma decide_create st article score_result score :
  retrieved_kb_article st = Some article →
  solution_evaluation common_client article = Ok score_result →
  score_result !! "solution_score" = Some score →
  (90 ≤ score)%Z →
  stage_decide common_client atlas_client st =
    (log_append
       (decision_log score "Sufficient solution found. Proceed to create response.")
       (set_decision (<["score" := VInt score]>
                        (<["outcome" := VStr "CREATE_RESPONSE"]> ∅))
          (log_append "✅ STAGE: DECIDE" st)),
     Ok tt).
Proof.
  intros Hart Hev Hscore Hge.
  unfold stage_decide. unfold_monad. simpl.
  rewrite Hart, Hev, Hscore.
  destruct (Z.leb_spec 90 score); [reflexivity | lia].
Qed.

Lemma decide_escalate st article score_result score escalation_result :
  retrieved_kb_article st = Some article →
  solution_evaluation common_client article = Ok score_result →
  score_result !! "solution_score" = Some score →
  (score < 90)%Z →
  escalation_decision atlas_client (ticket_id st) = Ok escalation_result →
  stage_decide common_client atlas_client st =
    (log_append
       (decision_log score "Solution score is low. Escalating to human agent.")
       (set_decision
          (merge_dict (<["score" := VInt score]>
                         (<["outcome" := VStr "ESCALATE"]> ∅))
                      (str_values escalation_result))
          (log_append "✅ STAGE: DECIDE" st)),
     Ok tt).
Proof.
  intros Hart Hev Hscore Hlt Hesc.
  unfold stage_decide. unfold_monad. simpl.
  rewrite Hart, Hev, Hscore.
  destruct (Z.leb_spec 90 score); [lia |].
  simpl. rewrite Hesc. reflexivity.
Qed.

Lemma decide_escalation_raises st article score_result score e :
  retrieved_kb_article st = Some article →
  solution_evaluation common_client article = Ok score_result →
  score_result !! "solution_score" = Some score →
  (score < 90)%Z →
  escalation_decision atlas_client (ticket_id st) = Raise e →
  stage_decide common_client atlas_client st =
    (log_append "✅ STAGE: DECIDE" st, Raise e).
Proof.
  intros Hart Hev Hscore Hlt Hesc.
  unfold stage_decide. unfold_monad. simpl.
  rewrite Hart, Hev, Hscore.
  destruct (Z.leb_spec 90 score); [lia |].
  simpl. rewrite Hesc. reflexivity.
Qed.

(** What each stage leaves behind when it returns. *)
Lemma intake_spec st :
  stage_intake st = (log_append "✅ STAGE: INTAKE - Payload accepted." st, Ok tt).
Proof. reflexivity. Qed.

Lemma complete_spec st :
  stage_complete st = (log_append "✅ STAGE: COMPLETE - Workflow finished." st, Ok tt).
Proof. reflexivity. Qed.

Lemma understand_ok st st' u :
  stage_understand common_client atlas_client st = (st', Ok u) →
  ∃ d, st' = set_structured_data d (log_append "✅ STAGE: UNDERSTAND" st).
Proof. unfold stage_understand. intros H. run_stage. eauto. Qed.

Lemma prepare_ok st st' u :
  stage_prepare common_client atlas_client st = (st', Ok u) →
  ∃ d, st' = set_enriched_data d (log_append "✅ STAGE: PREPARE" st).
Proof. unfold stage_prepare. intros H. run_stage. eauto. Qed.

Lemma retrieve_ok st st' u :
  stage_retrieve atlas_client st = (st', Ok u) →
  ∃ d, st' = set_retrieved_kb_article d (log_append "✅ STAGE: RETRIEVE" st).
Proof. unfold stage_retrieve. intros H. run_stage. eauto. Qed.

Lemma decide_ok st st' u :
  stage_decide common_client atlas_client st = (st', Ok u) →
  ∃ d score text,
    d !! "outcome" ≠ None ∧
    st' = log_append (decision_log score text)
            (set_decision d (log_append "✅ STAGE: DECIDE" st)).
Proof.
  unfold stage_decide. intros H. run_stage.
  - eexists _, _, _. split; [|reflexivity]. by simplify_map_eq.
  - eexists _, _, _. split; [|reflexivity].
    unfold merge_dict. intros Hn. apply lookup_union_None in Hn as [_ Hn].
    by simplify_map_eq.
Qed.

Lemma create_ok st st' u :
  stage_create common_client st = (st', Ok u) →
  ∃ r, st' = set_final_status RESOLVED
               (set_final_response r (log_append "✅ STAGE: CREATE" st)).
Proof. unfold stage_create. intros H. run_stage. eauto. Qed.

Lemma update_ok st st' u :
  stage_update atlas_client st = (st', Ok u) →
  st' = set_final_status ESCALATED
          (set_final_response "This ticket has been escalated for human review."
             (log_append "✅ STAGE: UPDATE" st)).
Proof. unfold stage_update. intros H. run_stage. Qed.

Lemma do_state st :
  (stage_do atlas_client st).1 = log_append "✅ STAGE: DO" st.
Proof. unfold stage_do. run_stage. Qed.

Lemma close_state st :
  (stage_close atlas_client st).1 = log_append "✅ STAGE: CLOSE" st.
Proof. unfold stage_close. run_stage. Qed.

End StageFacts.

(** ** The log under every stage *)

Section LogFacts.

Variable common_client : CommonMcp.
Variable atlas_client : AtlasMcp.

#[local] Abbreviation g := (workflow common_client atlas_client).

(** Every node of the workflow starts by appending its header, whether its
    stage then returns or raises. *)
Lemma node_appends n stage st :
  assoc n (nodes g) = Some stage →
  ∃ entry extra, log (stage st).1 = log st ++ entry :: extra.
Proof.
  unfold workflow. simpl. intros H.
  repeat (case_match; simplify_eq);
    [ unfold stage_intake | unfold stage_understand | unfold stage_prepare
    | unfold stage_retrieve | unfold stage_decide | unfold stage_create
    | unfold stage_update | unfold stage_do | unfold stage_close
    | unfold stage_complete ];
    unfold_monad; simpl;
    repeat (case_match; simpl in *; simplify_eq);
    simpl; rewrite <- ?app_assoc; simpl; eauto.
Qed.

Lemma node_log_prefix n stage st :
  assoc n (nodes g) = Some stage → log st `prefix_of` log (stage st).1.
Proof.
  intros H. destruct (node_appends n stage st H) as (entry & extra & ->).
  by eexists.
Qed.

End LogFacts.

(** ** The run loop *)

Section Engine.

Variable g : StateGraph.

Lemma run_from_0 n st : run_from g 0 n st = ([], Failed RecursionLimit st).
Proof. reflexivity. Qed.

Lemma run_from_S fuel n st :
  run_from g (S fuel) n st =
    match assoc n (nodes g) with
    | None => ([], Failed (ConfigurationError n) st)
    | Some stage =>
        match stage st with
        | (st', Raise e) => ([n], Failed (StageError e) st')
        | (st', Ok _) =>
            match next_target g n st' with
            | inl err => ([n], Failed err st')
            | inr target =>
                if String.eqb target END then ([n], Completed st')
                else let (trace, r) := run_from g fuel target st' in
                     (n :: trace, r)
            end
        end
    end.
Proof. reflexivity. Qed.

(** A run that did not hit the step limit is a derivation of [exec]. *)
Lemma run_from_exec fuel : ∀ n st trace r,
  run_from g fuel n st = (trace, r) →
  (∀ st', r ≠ Failed RecursionLimit st') →
  exec g n st trace r.
Proof.
  induction fuel as [|fuel IH]; intros n st trace r Hrun Hlim.
  - rewrite run_from_0 in Hrun. simplify_eq. by destruct (Hlim st).
  - rewrite run_from_S in Hrun.
    destruct (assoc n (nodes g)) as [stage|] eqn:Hn;
      [|simplify_eq; by constructor].
    destruct (stage st) as [st1 [u|e]] eqn:Hs;
      [|simplify_eq; by econstructor].
    destruct (next_target g n st1) as [err|target] eqn:Ht;
      [simplify_eq; by eapply exec_stuck|].
    destruct (String.eqb_spec target END) as [->|Hne].
    + simplify_eq. by eapply exec_end.
    + destruct (run_from g fuel target st1) as [trace' r'] eqn:Hrest.
      simplify_eq. eapply exec_next; eauto.
Qed.

(** [exec] is a partial function of the start node and state. *)
Lemma exec_deterministic n st trace1 r1 :
  exec g n st trace1 r1 →
  ∀ trace2 r2, exec g n st trace2 r2 → trace1 = trace2 ∧ r1 = r2.
Proof.
  induction 1 as [n st Hn | n stage st st' e Hn Hs
                 | n stage st st' u err Hn Hs Ht
                 | n stage st st' u Hn Hs Ht
                 | n stage st st' u target trace r Hn Hs Ht Hne Hrest IH];
    intros trace2 r2 H2; inversion H2; subst;
    repeat match goal with
           | H1 : ?a = _, H2 : ?a = _ |- _ => rewrite H1 in H2; simplify_eq
           end;
    try done.
  match goal with H : exec g _ _ _ _ |- _ => apply IH in H as [-> ->] end.
  done.
Qed.

(** The log only grows along a run when it only grows under each stage. *)
Lemma run_log_prefix :
  (∀ n stage st, assoc n (nodes g) = Some stage →
                 log st `prefix_of` log (stage st).1) →
  ∀ fuel n st, log st `prefix_of` log (result_state (run_from g fuel n st).2).
Proof.
  intros Hstage. induction fuel as [|fuel IH]; intros n st;
  [by rewrite run_from_0|].
  rewrite run_from_S.
  destruct (assoc n (nodes g)) as [stage|] eqn:Hn; [|done].
  specialize (Hstage n stage st Hn).
  destruct (stage st) as [st1 [u|e]]; simpl in *; [|done].
  destruct (next_target g n st1) as [err|target]; [done|].
  destruct (String.eqb target END); [done|].
  specialize (IH target st1).
  destruct (run_from g fuel target st1) as [trace' r']. simpl in *.
  by etrans.
Qed.

(** With a rank that every edge decreases, a run from a node of rank below
    the fuel never reaches the step limit. *)
Lemma run_within_limit (rank : string → nat) :
  (∀ n st target, next_target g n st = inr target → target ≠ END →
                  rank target < rank n) →
  ∀ fuel n st st', rank n < fuel →
    (run_from g fuel n st).2 ≠ Failed RecursionLimit st'.
Proof.
  intros Hrank. induction fuel as [|fuel IH]; intros n st st' Hlt; [lia|].
  rewrite run_from_S.
  destruct (assoc n (nodes g)) as [stage|]; [|done].
  destruct (stage st) as [st1 [u|e]]; [|done].
  destruct (next_target g n st1) as [err|target] eqn:Ht.
  - simpl. intros ?. simplify_eq.
    unfold next_target in Ht. repeat case_match; simplify_eq.
  - destruct (String.eqb_spec target END) as [->|Hne]; [done|].
    specialize (Hrank n st1 target Ht Hne).
    specialize (IH target st1 st' ltac:(lia)).
    by destruct (run_from g fuel target st1).
Qed.

(** One step at a node with a single static edge. *)
Lemma step_static n stage target fuel st :
assoc n (nodes g) = Some stage →
assoc n (branches g) = None →
assoc n (edges g) = Some target →
String.eqb target END = false →
run_from g (S fuel) n st =
  match stage st with
  | (st', Raise e) => ([n], Failed (StageError e) st')
  | (st', Ok _) =>
      let (trace, r) := run_from g fuel target st' in (n :: trace, r)
  end.
Proof.
intros Hn Hb He Hend. rewrite run_from_S, Hn.
destruct (stage st) as [st' [u|e]]; [|done].
unfold next_target. by rewrite Hb, He, Hend.
Qed.

End Engine.

(** ** The workflow graph *)

Ltac eqb_subst :=
  repeat match goal with
         | H : String.eqb _ _ = true |- _ => apply String.eqb_eq in H; subst
         end.

Lemma route_after_decision_label st label :
  route_after_decision st = Ok label → label = "CREATE" ∨ label = "UPDATE".
Proof.
  unfold route_after_decision, subscript. intros H.
  repeat case_match; simplify_eq; auto.
Qed.

Section WorkflowFacts.

Variable common_client : CommonMcp.
Variable atlas_client : AtlasMcp.

#[local] Abbreviation g := (workflow common_client atlas_client).

Lemma next_static n target st :
  assoc n (edges g) = Some target →
  assoc n (branches g) = None →
  next_target g n st = inr target.
Proof. unfold next_target. by intros -> ->. Qed.

Lemma next_DECIDE st :
  next_target g "DECIDE" st =
    match route_after_decision st with
    | Raise e => inl (StageError e)
    | Ok label => inr label
    end.
Proof.
  unfold next_target. simpl.
  destruct (route_after_decision st) as [label|e] eqn:Hr; [|done].
  by destruct (route_after_decision_label _ _ Hr) as [-> | ->].
Qed.

Lemma next_DO st :
  next_target g "DO" st =
    match final_status st with
    | None => inl (StageError (KeyError "final_status"))
    | Some RESOLVED => inr "CLOSE"
    | Some ESCALATED => inr END
    end.
Proof.
  unfold next_target. simpl. unfold route_after_do.
  by destruct (final_status st) as [[]|].
Qed.

(** Every edge leads to a node of smaller rank: the graph has no cycle. *)
Lemma workflow_rank n st target :
  next_target g n st = inr target → target ≠ END →
  node_rank target < node_rank n.
Proof.
  unfold next_target. simpl. intros H Hne.
  repeat (case_match; simplify_eq); eqb_subst;
    try (vm_compute; lia); try done.
  all: match goal with
       | H : route_after_decision _ = Ok _ |- _ =>
           apply route_after_decision_label in H as [-> | ->]
       | H : route_after_do _ = Ok _ |- _ =>
           unfold route_after_do in H; repeat case_match; simplify_eq
       end; simpl in *; simplify_eq; try done; vm_compute; lia.
Qed.

(** A run of the workflow never reaches the step limit. *)
Lemma workflow_within_limit st st' :
  (invoke g st).2 ≠ Failed RecursionLimit st'.
Proof.
  unfold invoke. simpl.
  apply (run_within_limit g node_rank workflow_rank).
  vm_compute. lia.
Qed.

Lemma invoke_exec st :
  exec g "INTAKE" st (invoke g st).1 (invoke g st).2.
Proof.
  apply (run_from_exec g recursion_limit).
  - unfold invoke. simpl. by destruct (run_from g recursion_limit "INTAKE" st).
  - intros st'. apply workflow_within_limit.
Qed.

End WorkflowFacts.

(** ** Runs of the workflow *)

Section WorkflowRuns.

Variable common_client : CommonMcp.
Variable atlas_client : AtlasMcp.

#[local] Abbreviation g := (workflow common_client atlas_client).

Lemma step_COMPLETE fuel st :
  run_from g (S fuel) "COMPLETE" st =
    (["COMPLETE"], Completed (log_append "✅ STAGE: COMPLETE - Workflow finished." st)).
Proof. reflexivity. Qed.

Lemma step_CLOSE fuel st :
  run_from g (S (S fuel)) "CLOSE" st =
    match (stage_close atlas_client st).2 with
    | Raise e => (["CLOSE"], Failed (StageError e) (log_append "✅ STAGE: CLOSE" st))
    | Ok _ =>
        (["CLOSE"; "COMPLETE"],
         Completed (log_append "✅ STAGE: COMPLETE - Workflow finished."
                      (log_append "✅ STAGE: CLOSE" st)))
    end.
Proof.
  rewrite (step_static g "CLOSE" (stage_close atlas_client) "COMPLETE") by done.
  pose proof (close_state atlas_client st) as Hst.
  destruct (stage_close atlas_client st) as [st' [u|e]];
    simpl in Hst; subst; cbv beta iota; [|done].
  by rewrite step_COMPLETE.
Qed.

Lemma step_DO fuel st :
  run_from g (S (S (S fuel))) "DO" st =
    let st' := log_append "✅ STAGE: DO" st in
    match (stage_do atlas_client st).2 with
    | Raise e => (["DO"], Failed (StageError e) st')
    | Ok _ =>
        match final_status st with
        | None => (["DO"], Failed (StageError (KeyError "final_status")) st')
        | Some ESCALATED => (["DO"], Completed st')
        | Some RESOLVED =>
            let (trace, r) := run_from g (S (S fuel)) "CLOSE" st' in
            ("DO" :: trace, r)
        end
    end.
Proof.
  rewrite run_from_S.
  change (assoc "DO" (nodes g)) with (Some (stage_do atlas_client)).
  cbv beta iota.
  pose proof (do_state atlas_client st) as Hst.
  destruct (stage_do atlas_client st) as [st' [u|e]];
    simpl in Hst; subst; cbv beta iota; [|done].
  rewrite next_DO. simpl.
  by destruct (final_status st) as [[]|].
Qed.

Lemma step_DECIDE fuel st :
  run_from g (S fuel) "DECIDE" st =
    match stage_decide common_client atlas_client st with
    | (st', Raise e) => (["DECIDE"], Failed (StageError e) st')
    | (st', Ok _) =>
        match route_after_decision st' with
        | Raise e => (["DECIDE"], Failed (StageError e) st')
        | Ok label =>
            let (trace, r) := run_from g fuel label st' in ("DECIDE" :: trace, r)
        end
    end.
Proof.
  rewrite run_from_S.
  change (assoc "DECIDE" (nodes g))
    with (Some (stage_decide common_client atlas_client)).
  cbv beta iota.
  destruct (stage_decide common_client atlas_client st) as [st' [u|e]]; [|done].
  rewrite next_DECIDE.
  destruct (route_after_decision st') as [label|e] eqn:Hr; [|done].
  by destruct (route_after_decision_label _ _ Hr) as [-> | ->].
Qed.

End WorkflowRuns.

(** ** Complete runs *)

Section CompleteRuns.

Variable common_client : CommonMcp.
Variable atlas_client : AtlasMcp.

#[local] Abbreviation g := (workflow common_client atlas_client).

Lemma completed_DO fuel st trace fin :
  run_from g (S (S (S fuel))) "DO" st = (trace, Completed fin) →
  (final_status st = Some RESOLVED ∧ trace = ["DO"; "CLOSE"; "COMPLETE"] ∧
   fin = log_append "✅ STAGE: COMPLETE - Workflow finished."
           (log_append "✅ STAGE: CLOSE" (log_append "✅ STAGE: DO" st))) ∨
  (final_status st = Some ESCALATED ∧ trace = ["DO"] ∧
   fin = log_append "✅ STAGE: DO" st).
Proof.
  intros H. rewrite step_DO in H. cbv zeta in H.
  destruct (stage_do atlas_client st).2; [|done].
  destruct (final_status st) as [[]|]; [| |done].
  - rewrite step_CLOSE in H.
    destruct (stage_close atlas_client (log_append "✅ STAGE: DO" st)).2; [|done].
    simplify_eq. by left.
  - simplify_eq. by right.
Qed.

Lemma completed_DECIDE fuel st trace fin :
  run_from g (S (S (S (S (S fuel))))) "DECIDE" st = (trace, Completed fin) →
  ∃ d score text,
    let st5 := log_append (decision_log score text)
                 (set_decision d (log_append "✅ STAGE: DECIDE" st)) in
    (∃ r, trace = ["DECIDE"; "CREATE"; "DO"; "CLOSE"; "COMPLETE"] ∧
       fin = log_append "✅ STAGE: COMPLETE - Workflow finished."
               (log_append "✅ STAGE: CLOSE"
                  (log_append "✅ STAGE: DO"
                     (set_final_status RESOLVED
                        (set_final_response r
                           (log_append "✅ STAGE: CREATE" st5)))))) ∨
    (trace = ["DECIDE"; "UPDATE"; "DO"] ∧
       fin = log_append "✅ STAGE: DO"
               (set_final_status ESCALATED
                  (set_final_response
                     "This ticket has been escalated for human review."
                     (log_append "✅ STAGE: UPDATE" st5)))).
Proof.
  intros H. rewrite step_DECIDE in H.
  destruct (stage_decide common_client atlas_client st) as [st5 [u|e]] eqn:Hdec;
    [|done].
  apply decide_ok in Hdec as (d & score & text & _ & ->).
  destruct (route_after_decision _) as [label|e] eqn:Hroute; [|done].
  exists d, score, text. cbv zeta.
  destruct (route_after_decision_label _ _ Hroute) as [-> | ->].
  - rewrite (step_static g "CREATE" (stage_create common_client) "DO") in H by done.
    destruct (stage_create common_client _) as [st6 [u'|e]] eqn:Hcreate; [|done].
    apply create_ok in Hcreate as (r & ->).
    destruct (run_from g _ "DO" _) as [trace' r'] eqn:Hdo.
    simplify_eq.
    apply completed_DO in Hdo as [(_ & -> & ->) | (Hf & _)]; [|done].
    left. by exists r.
  - rewrite (step_static g "UPDATE" (stage_update atlas_client) "DO") in H by done.
    destruct (stage_update atlas_client _) as [st6 [u'|e]] eqn:Hupdate; [|done].
    apply update_ok in Hupdate as ->.
    destruct (run_from g _ "DO" _) as [trace' r'] eqn:Hdo.
    simplify_eq.
    apply completed_DO in Hdo as [(Hf & _) | (_ & -> & ->)]; [done|].
    by right.
Qed.

(** A complete run follows one of the two paths; the final status and the
    appended log entries are those of the path. *)
Lemma completed_run st trace fin :
  invoke g st = (trace, Completed fin) →
  ∃ score text,
    (trace = resolved_path ∧ final_status fin = Some RESOLVED ∧
     log fin = log st ++ resolved_log (decision_log score text)) ∨
    (trace = escalated_path ∧ final_status fin = Some ESCALATED ∧
     log fin = log st ++ escalated_log (decision_log score text)).
Proof.
  unfold invoke.
  change (entry_point g) with (Some "INTAKE"). cbv beta iota.
  unfold recursion_limit. intros H.
  rewrite (step_static g "INTAKE" stage_intake "UNDERSTAND") in H by done.
  rewrite intake_spec in H.
  rewrite (step_static g "UNDERSTAND"
             (stage_understand common_client atlas_client) "PREPARE") in H by done.
  destruct (stage_understand _ _ _) as [st2 [u2|e]] eqn:H2; [|done].
  apply understand_ok in H2 as (sd & ->).
  rewrite (step_static g "PREPARE"
             (stage_prepare common_client atlas_client) "RETRIEVE") in H by done.
  destruct (stage_prepare _ _ _) as [st3 [u3|e]] eqn:H3; [|done].
  apply prepare_ok in H3 as (ed & ->).
  rewrite (step_static g "RETRIEVE" (stage_retrieve atlas_client) "DECIDE") in H
    by done.
  destruct (stage_retrieve _ _) as [st4 [u4|e]] eqn:H4; [|done].
  apply retrieve_ok in H4 as (art & ->).
  destruct (run_from g _ "DECIDE" _) as [trace5 r5] eqn:H5.
  simplify_eq.
  apply completed_DECIDE in H5 as (d & score & text & H5).
  exists score, text. cbv zeta in H5.
  destruct H5 as [(r & -> & ->) | (-> & ->)]; [left | right];
    (split; [done|]); (split; [done|]);
    simpl; rewrite <- !app_assoc; done.
Qed.

(** Outside CREATE and UPDATE no node assigns [final_status]. *)
Lemma node_keeps_final_status n stage st :
  assoc n (nodes g) = Some stage → n ≠ "CREATE" → n ≠ "UPDATE" →
  final_status (stage st).1 = final_status st.
Proof.
  unfold workflow. simpl. intros H Hc Hu.
  repeat (case_match; simplify_eq); eqb_subst; try done;
    unfold stage_intake, stage_understand, stage_prepare, stage_retrieve,
      stage_decide, stage_do, stage_close, stage_complete;
    unfold_monad; simpl;
    repeat (case_match; simpl in *; simplify_eq); done.
Qed.

End CompleteRuns.

(** * The claims *)

(** ** C1: the decision threshold *)

(** C1.  Take a state whose [retrieved_kb_article] is present and a scoring
    capability that returns [score] for it.  If [score >= 90], DECIDE returns
    with [decision = {score, outcome: CREATE_RESPONSE}], whatever the
    escalation capability would do: it is not called.  If [score < 90], DECIDE
    makes the escalation-assignment call: when the call returns, [decision]
    is [{score, outcome: ESCALATE}] merged with its result, and when it
    raises, so does DECIDE; with the client of the source the record is
    [{score, outcome: ESCALATE, escalation_status}].  The threshold is
    inclusive: the first case covers [score = 90]. *)
Theorem decide_threshold (common_client : CommonMcp) (atlas_client : AtlasMcp)
    (st : AgentState) (article : dict) (score_result : gmap string Z) (score : Z) :
  retrieved_kb_article st = Some article →
  solution_evaluation common_client article = Ok score_result →
  score_result !! "solution_score" = Some score →
  ((90 ≤ score)%Z →
     ∃ st', stage_decide common_client atlas_client st = (st', Ok tt) ∧
            decision st' = Some (<["score" := VInt score]>
                                   (<["outcome" := VStr "CREATE_RESPONSE"]> ∅))) ∧
  ((score < 90)%Z →
     (∀ escalation_result,
        escalation_decision atlas_client (ticket_id st) = Ok escalation_result →
        ∃ st' d, stage_decide common_client atlas_client st = (st', Ok tt) ∧
                 decision st' = Some d ∧
                 d = merge_dict (<["score" := VInt score]>
                                   (<["outcome" := VStr "ESCALATE"]> ∅))
                                (str_values escalation_result) ∧
                 (escalation_result !! "outcome" = None →
                  d !! "outcome" = Some (VStr "ESCALATE"))) ∧
     (∀ e,
        escalation_decision atlas_client (ticket_id st) = Raise e →
        (stage_decide common_client atlas_client st).2 = Raise e) ∧
     (∃ st' d, stage_decide common_client AtlasMcpClient st = (st', Ok tt) ∧
               decision st' = Some d ∧
               d !! "score" = Some (VInt score) ∧
               d !! "outcome" = Some (VStr "ESCALATE") ∧
               d !! "escalation_status" = Some (VStr "Assigned to Tier 2 Support"))).
Proof.
  intros Hart Hev Hscore. split; [intros Hge | intros Hlt; split; [|split]].
  - eexists. split.
    + by apply (decide_create _ _ _ article score_result).
    + reflexivity.
  - intros escalation_result Hesc. eexists _, _. split; [|split; [|split]].
    + by apply (decide_escalate _ _ _ article score_result score escalation_result).
    + reflexivity.
    + reflexivity.
    + intros Hnone. unfold merge_dict, str_values.
      rewrite lookup_union_r by (by rewrite lookup_fmap, Hnone).
      by simplify_map_eq.
  - intros e Hesc.
    by rewrite (decide_escalation_raises _ _ _ article score_result score e).
  - eexists _, _. split; [|split; [|split; [|split]]].
    + by apply (decide_escalate _ _ _ article score_result score
                  (<["escalation_status" := "Assigned to Tier 2 Support"]> ∅)).
    + reflexivity.
    + reflexivity.
    + reflexivity.
    + reflexivity.
Qed.

(** A scorer that answers exactly 90 selects CREATE_RESPONSE. *)
Lemma decide_threshold_witness :
  ∃ st', stage_decide (fixed_score_client 90) AtlasMcpClient sample_without_article
           = (st', Ok tt) ∧
         decision st' = Some (<["score" := VInt 90]>
                                (<["outcome" := VStr "CREATE_RESPONSE"]> ∅)).
Proof.
  refine (proj1 (decide_threshold (fixed_score_client 90) AtlasMcpClient
                   sample_without_article ∅ (<["solution_score" := 90%Z]> ∅) 90
                   _ _ _) _).
  - reflexivity.
  - reflexivity.
  - reflexivity.
  - lia.
Defined.

(** ** C2: missing fields *)

#[local] Arguments Raw.run_from : simpl never.

Ltac unfold_raw :=
  unfold mbind, Raw.M_bind, mret, Raw.M_ret, Raw.modify, Raw.read, Raw.call,
    subscript in *.

Ltac open_raw_stages :=
  unfold Raw.stage_intake, Raw.stage_understand, Raw.stage_prepare,
    Raw.stage_retrieve, Raw.stage_decide, Raw.stage_create, Raw.stage_update,
    Raw.stage_do, Raw.stage_close, Raw.stage_complete in *;
  unfold_raw; simpl in *.

Lemma raw_run_from_S g fuel n st :
  Raw.run_from g (S fuel) n st =
    match assoc n (Raw.nodes g) with
    | None => ([], Raw.Failed (ConfigurationError n) st)
    | Some stage =>
        match stage st with
        | (st', Raise e) => ([n], Raw.Failed (StageError e) st')
        | (st', Ok _) =>
            match Raw.next_target g n st' with
            | inl err => ([n], Raw.Failed err st')
            | inr target =>
                if String.eqb target END then ([n], Raw.Completed st')
                else let (trace, r) := Raw.run_from g fuel target st' in
                     (n :: trace, r)
            end
        end
    end.
Proof. reflexivity. Qed.

Lemma raw_route_after_decision_label st label :
  Raw.route_after_decision st = Ok label → label = "CREATE" ∨ label = "UPDATE".
Proof.
  unfold Raw.route_after_decision, subscript. intros H.
  repeat case_match; simplify_eq; auto.
Qed.

Section RawRuns.

Variable common_client : CommonMcp.
Variable atlas_client : AtlasMcp.

#[local] Abbreviation g := (Raw.workflow common_client atlas_client).

(** Every edge leads to a node of smaller rank. *)
Lemma raw_workflow_rank n st target :
  Raw.next_target g n st = inr target → target ≠ END →
  node_rank target < node_rank n.
Proof.
  unfold Raw.next_target. simpl. intros H Hne.
  repeat (case_match; simplify_eq); eqb_subst;
    try (vm_compute; lia); try done.
  all: match goal with
       | H : Raw.route_after_decision _ = Ok _ |- _ =>
           apply raw_route_after_decision_label in H as [-> | ->]
       | H : Raw.route_after_do _ = Ok _ |- _ =>
           unfold Raw.route_after_do in H; repeat case_match; simplify_eq
       end; simpl in *; simplify_eq; try done; vm_compute; lia.
Qed.

(** A node the run reaches is reached within [node_rank] steps, and the run
    continues from it as a run of its own. *)
Lemma reaches_run n0 st0 n st :
  Raw.reaches g n0 st0 n st →
  ∃ k prefix,
    (k + node_rank n ≤ node_rank n0)%nat ∧
    ∀ fuel,
      Raw.run_from g (k + fuel) n0 st0 =
        let (trace, r) := Raw.run_from g fuel n st in (prefix ++ trace, r).
Proof.
  induction 1 as [n st | n stage st st' u target m st_m Hn Hs Ht Hne Hrest IH].
  - exists 0%nat, []. split; [lia|]. intros fuel. simpl.
    by destruct (Raw.run_from g fuel n st).
  - destruct IH as (k & prefix & Hk & Hrun).
    pose proof (raw_workflow_rank n st' target Ht Hne) as Hrank.
    exists (S k), (n :: prefix). split; [lia|]. intros fuel.
    change (S k + fuel)%nat with (S (k + fuel)).
    rewrite raw_run_from_S, Hn, Hs, Ht.
    destruct (String.eqb_spec target END) as [->|_]; [done|].
    rewrite Hrun. by destruct (Raw.run_from g fuel m st_m).
Qed.

(** A stage called without a requirement of the catalogue appends its header
    and raises. *)
Lemma raw_stage_unmet n st :
  requires n st = false →
  ∃ stage entry e,
    assoc n (Raw.nodes g) = Some stage ∧
    stage st = (Raw.log_append entry st, Raise e) ∧
    ((∃ key,
        e = KeyError key ∧
        (n, entry, key) ∈
          [("UNDERSTAND", "✅ STAGE: UNDERSTAND", "query");
           ("PREPARE", "✅ STAGE: PREPARE", "ticket_id");
           ("PREPARE", "✅ STAGE: PREPARE", "email");
           ("PREPARE", "✅ STAGE: PREPARE", "priority");
           ("PREPARE", "✅ STAGE: PREPARE", "query");
           ("RETRIEVE", "✅ STAGE: RETRIEVE", "structured_data");
           ("RETRIEVE", "✅ STAGE: RETRIEVE", "extracted_entities");
           ("DECIDE", "✅ STAGE: DECIDE", "retrieved_kb_article");
           ("CREATE", "✅ STAGE: CREATE", "customer_name");
           ("CREATE", "✅ STAGE: CREATE", "query");
           ("CREATE", "✅ STAGE: CREATE", "retrieved_kb_article");
           ("UPDATE", "✅ STAGE: UPDATE", "ticket_id");
           ("DO", "✅ STAGE: DO", "email");
           ("DO", "✅ STAGE: DO", "final_response");
           ("CLOSE", "✅ STAGE: CLOSE", "ticket_id")]) ∨
     (n = "PREPARE" ∧ entry = "✅ STAGE: PREPARE" ∧
      ∃ tid, Raw.ticket_id st = Some tid ∧
        (normalize_fields common_client tid = Raise e ∨
         ∃ mail, Raw.email st = Some mail ∧
           enrich_records atlas_client mail = Raise e))).
Proof.
  unfold requires, required_keys. intros H.
  repeat (case_match; simplify_eq); eqb_subst; try done;
    [ exists (Raw.stage_understand common_client atlas_client)
    | exists (Raw.stage_prepare common_client atlas_client)
    | exists (Raw.stage_retrieve atlas_client)
    | exists (Raw.stage_decide common_client atlas_client)
    | exists (Raw.stage_create common_client)
    | exists (Raw.stage_update atlas_client)
    | exists (Raw.stage_do atlas_client)
    | exists (Raw.stage_close atlas_client) ];
    simpl in H; unfold has_key in H; simpl in H;
    rewrite ?andb_true_r in H; destruct st; simpl in H.
  all: repeat match goal with
         | H : _ && _ = false |- _ => apply andb_false_iff in H as [H|H]
         | H : bool_decide _ = false |- _ =>
             apply bool_decide_eq_false in H;
             rewrite <- eq_None_not_Some in H
         end; simplify_eq.
  all: open_raw_stages.
  all: repeat (case_match; simpl in *; simplify_eq).
  all: eexists _, _; (split; [reflexivity|]); (split; [reflexivity|]).
  all: first [ left; eexists; split; [reflexivity|];
               by repeat constructor
             | right; split; [done|]; split; [done|];
               eexists; split; [done|]; eauto ].
Qed.

End RawRuns.

(** C2, as the code has it.  No requirement is checked before a stage is
    called.  When a run of the app reaches a stage whose declared requirement
    the state does not meet, the stage is called all the same: it appends its
    log entry and raises, and the run fails there with that exception, which
    is the [KeyError] of an absent key the stage subscripts; only in PREPARE
    can the exception of a capability call made before that subscript come
    first. *)
Theorem unmet_requirement_raises (common_client : CommonMcp)
    (atlas_client : AtlasMcp) (payload : Raw.State) (n : string)
    (st : Raw.State) :
  Raw.reaches (Raw.workflow common_client atlas_client) "INTAKE" payload n st →
  requires n st = false →
  ∃ trace entry e,
    Raw.invoke (Raw.workflow common_client atlas_client) payload
      = (trace, Raw.Failed (StageError e) (Raw.log_append entry st)) ∧
    last trace = Some n ∧
    ((∃ key,
        e = KeyError key ∧
        (n, entry, key) ∈
          [("UNDERSTAND", "✅ STAGE: UNDERSTAND", "query");
           ("PREPARE", "✅ STAGE: PREPARE", "ticket_id");
           ("PREPARE", "✅ STAGE: PREPARE", "email");
           ("PREPARE", "✅ STAGE: PREPARE", "priority");
           ("PREPARE", "✅ STAGE: PREPARE", "query");
           ("RETRIEVE", "✅ STAGE: RETRIEVE", "structured_data");
           ("RETRIEVE", "✅ STAGE: RETRIEVE", "extracted_entities");
           ("DECIDE", "✅ STAGE: DECIDE", "retrieved_kb_article");
           ("CREATE", "✅ STAGE: CREATE", "customer_name");
           ("CREATE", "✅ STAGE: CREATE", "query");
           ("CREATE", "✅ STAGE: CREATE", "retrieved_kb_article");
           ("UPDATE", "✅ STAGE: UPDATE", "ticket_id");
           ("DO", "✅ STAGE: DO", "email");
           ("DO", "✅ STAGE: DO", "final_response");
           ("CLOSE", "✅ STAGE: CLOSE", "ticket_id")]) ∨
     (n = "PREPARE" ∧ entry = "✅ STAGE: PREPARE" ∧
      ∃ tid, Raw.ticket_id st = Some tid ∧
        (normalize_fields common_client tid = Raise e ∨
         ∃ mail, Raw.email st = Some mail ∧
           enrich_records atlas_client mail = Raise e))).
Proof.
  intros Hreach Hreq.
  destruct (raw_stage_unmet common_client atlas_client n st Hreq)
    as (stage & entry & e & Hn & Hs & Hcause).
  destruct (reaches_run common_client atlas_client _ _ _ _ Hreach)
    as (k & prefix & Hk & Hrun).
  change (node_rank "INTAKE") with 9%nat in Hk.
  exists (prefix ++ [n]), entry, e. split; [|split; [by rewrite last_snoc | done]].
  unfold Raw.invoke.
  change (Raw.entry_point (Raw.workflow common_client atlas_client))
    with (Some "INTAKE").
  cbv beta iota. unfold recursion_limit.
  replace 25%nat with (k + S (24 - k))%nat by lia.
  by rewrite Hrun, raw_run_from_S, Hn, Hs.
Qed.

Lemma unmet_requirement_raises_witness :
  ∃ trace entry e,
    Raw.invoke (Raw.workflow (CommonMcpClient demo_repr) AtlasMcpClient)
      payload_without_query
      = (trace,
         Raw.Failed (StageError e)
           (Raw.log_append entry
              (Raw.log_append "✅ STAGE: INTAKE - Payload accepted."
                 payload_without_query))) ∧
    last trace = Some "UNDERSTAND" ∧
    ((∃ key,
        e = KeyError key ∧
        (("UNDERSTAND" : string), entry, key) ∈
          [("UNDERSTAND", "✅ STAGE: UNDERSTAND", "query");
           ("PREPARE", "✅ STAGE: PREPARE", "ticket_id");
           ("PREPARE", "✅ STAGE: PREPARE", "email");
           ("PREPARE", "✅ STAGE: PREPARE", "priority");
           ("PREPARE", "✅ STAGE: PREPARE", "query");
           ("RETRIEVE", "✅ STAGE: RETRIEVE", "structured_data");
           ("RETRIEVE", "✅ STAGE: RETRIEVE", "extracted_entities");
           ("DECIDE", "✅ STAGE: DECIDE", "retrieved_kb_article");
           ("CREATE", "✅ STAGE: CREATE", "customer_name");
           ("CREATE", "✅ STAGE: CREATE", "query");
           ("CREATE", "✅ STAGE: CREATE", "retrieved_kb_article");
           ("UPDATE", "✅ STAGE: UPDATE", "ticket_id");
           ("DO", "✅ STAGE: DO", "email");
           ("DO", "✅ STAGE: DO", "final_response");
           ("CLOSE", "✅ STAGE: CLOSE", "ticket_id")]) ∨
     (("UNDERSTAND" : string) = "PREPARE" ∧ entry = "✅ STAGE: PREPARE" ∧
      ∃ tid,
        Raw.ticket_id
          (Raw.log_append "✅ STAGE: INTAKE - Payload accepted."
             payload_without_query) = Some tid ∧
        (normalize_fields (CommonMcpClient demo_repr) tid = Raise e ∨
         ∃ mail,
           Raw.email
             (Raw.log_append "✅ STAGE: INTAKE - Payload accepted."
                payload_without_query) = Some mail ∧
           enrich_records AtlasMcpClient mail = Raise e))).
Proof.
  apply (unmet_requirement_raises (CommonMcpClient demo_repr) AtlasMcpClient
           payload_without_query "UNDERSTAND"
           (Raw.log_append "✅ STAGE: INTAKE - Payload accepted."
              payload_without_query)).
  - eapply Raw.reaches_next with (stage := Raw.stage_intake) (u := tt).
    + reflexivity.
    + reflexivity.
    + reflexivity.
    + discriminate.
    + apply Raw.reaches_here.
  - reflexivity.
Defined.

(** C2 as stated fails: on the demo payload sent without its query, the app
    calls UNDERSTAND although its requirement is unmet; UNDERSTAND leaves its
    entry in the log and the run fails with [KeyError], not with a
    precondition error raised before the call. *)
Lemma understand_called_without_query :
  requires "UNDERSTAND"
    (Raw.log_append "✅ STAGE: INTAKE - Payload accepted." payload_without_query)
    = false ∧
  Raw.app demo_repr payload_without_query =
    (["INTAKE"; "UNDERSTAND"],
     Raw.Failed (StageError (KeyError "query"))
       (Raw.log_append "✅ STAGE: UNDERSTAND"
          (Raw.log_append "✅ STAGE: INTAKE - Payload accepted."
             payload_without_query))) ∧
  Raw.log (Raw.result_state (Raw.app demo_repr payload_without_query).2)
    = ["✅ STAGE: INTAKE - Payload accepted."; "✅ STAGE: UNDERSTAND"].
Proof. split; [|split]; reflexivity. Qed.

(** On a complete payload the stages over optional input fields do what the
    stages of the main development do. *)
Section CompletePayloads.

Variable common_client : CommonMcp.
Variable atlas_client : AtlasMcp.

Lemma raw_node_agrees n :
  match assoc n (nodes (workflow common_client atlas_client)),
        assoc n (Raw.nodes (Raw.workflow common_client atlas_client)) with
  | Some stage, Some raw_stage =>
      ∀ st, raw_stage (raw_of_state st)
            = (raw_of_state (stage st).1, (stage st).2)
  | None, None => True
  | _, _ => False
  end.
Proof.
  unfold workflow, Raw.workflow. simpl.
  repeat (case_match; simplify_eq); try done; intros st; destruct st;
    unfold stage_intake, stage_understand, stage_prepare, stage_retrieve,
      stage_decide, stage_create, stage_update, stage_do, stage_close,
      stage_complete;
    unfold_monad; open_raw_stages; unfold raw_of_state; simpl;
    repeat (case_match; simpl in *; simplify_eq); done.
Qed.

Lemma raw_next_agrees n st :
  Raw.next_target (Raw.workflow common_client atlas_client) n (raw_of_state st)
    = next_target (workflow common_client atlas_client) n st.
Proof.
  unfold Raw.next_target, next_target. simpl.
  unfold Raw.route_after_decision, route_after_decision, Raw.route_after_do,
    route_after_do, raw_of_state. simpl.
  repeat (case_match; simpl in *; simplify_eq); done.
Qed.

Lemma raw_run_agrees fuel : ∀ n st,
  Raw.run_from (Raw.workflow common_client atlas_client) fuel n (raw_of_state st)
    = ((run_from (workflow common_client atlas_client) fuel n st).1,
       raw_of_result (run_from (workflow common_client atlas_client) fuel n st).2).
Proof.
  induction fuel as [|fuel IH]; intros n st; [done|].
  rewrite raw_run_from_S, run_from_S.
  pose proof (raw_node_agrees n) as Hn.
  destruct (assoc n (nodes _)) as [stage|], (assoc n (Raw.nodes _)) as [raw_stage|];
    try done.
  rewrite Hn. destruct (stage st) as [st' [u|e]]; simpl; [|done].
  rewrite raw_next_agrees.
  destruct (next_target _ n st') as [err|target]; [done|].
  destruct (String.eqb target END); [done|].
  rewrite IH. by destruct (run_from _ fuel target st').
Qed.

Lemma raw_invoke_agrees st :
  Raw.invoke (Raw.workflow common_client atlas_client) (raw_of_state st)
    = ((invoke (workflow common_client atlas_client) st).1,
       raw_of_result (invoke (workflow common_client atlas_client) st).2).
Proof.
  unfold Raw.invoke, invoke.
  change (Raw.entry_point (Raw.workflow common_client atlas_client))
    with (Some "INTAKE").
  change (entry_point (workflow common_client atlas_client)) with (Some "INTAKE").
  cbv beta iota. apply raw_run_agrees.
Qed.

End CompletePayloads.

(** ** C3: the final status and the branch taken *)

(** C3.  In every completed run the final status is RESOLVED exactly when
    CREATE was executed and ESCALATED exactly when UPDATE was executed;
    exactly one of the two is executed, once; and no other executed stage
    assigns [final_status], so it is written exactly once. *)
Theorem final_status_tracks_branch (common_client : CommonMcp)
    (atlas_client : AtlasMcp) (st fin : AgentState) (trace : list string) :
  invoke (workflow common_client atlas_client) st = (trace, Completed fin) →
  (final_status fin = Some RESOLVED ↔ "CREATE" ∈ trace) ∧
  (final_status fin = Some ESCALATED ↔ "UPDATE" ∈ trace) ∧
  count_occ string_dec trace "CREATE" + count_occ string_dec trace "UPDATE" = 1 ∧
  (∀ n stage s,
     n ∈ trace → n ≠ "CREATE" → n ≠ "UPDATE" →
     assoc n (nodes (workflow common_client atlas_client)) = Some stage →
     final_status (stage s).1 = final_status s).
Proof.
  intros Hrun.
  assert (∀ n stage s,
            n ≠ "CREATE" → n ≠ "UPDATE" →
            assoc n (nodes (workflow common_client atlas_client)) = Some stage →
            final_status (stage s).1 = final_status s) as Hkeep.
  { intros n stage s Hc Hu Hn.
    by apply (node_keeps_final_status common_client atlas_client n). }
  apply completed_run in Hrun as (score & text & [(-> & Hf & _) | (-> & Hf & _)]);
    rewrite Hf; unfold resolved_path, escalated_path;
    (split; [|split; [|split]]); try (intros n stage s _; apply Hkeep);
    try reflexivity;
    rewrite !elem_of_cons, elem_of_nil; naive_solver.
Qed.

Lemma final_status_tracks_branch_witness :
  (final_status demo_final = Some RESOLVED ↔ "CREATE" ∈ resolved_path) ∧
  (final_status demo_final = Some ESCALATED ↔ "UPDATE" ∈ resolved_path) ∧
  count_occ string_dec resolved_path "CREATE"
    + count_occ string_dec resolved_path "UPDATE" = 1.
Proof.
  destruct (final_status_tracks_branch (CommonMcpClient demo_repr) AtlasMcpClient
              sample_input demo_final resolved_path demo_run_result)
    as (H1 & H2 & H3 & _).
  repeat split; assumption || apply H1 || apply H2.
Defined.

(** ** C4: routing after DO *)

Section SourceAtlas.

Variable common_client : CommonMcp.

#[local] Abbreviation g := (workflow common_client AtlasMcpClient).

Lemma do_returns st message :
  final_response st = Some message → (stage_do AtlasMcpClient st).2 = Ok tt.
Proof. intros H. unfold stage_do. unfold_monad. simpl. by rewrite H. Qed.

Lemma close_returns st : (stage_close AtlasMcpClient st).2 = Ok tt.
Proof. reflexivity. Qed.

Lemma update_returns st :
  stage_update AtlasMcpClient st =
    (set_final_status ESCALATED
       (set_final_response "This ticket has been escalated for human review."
          (log_append "✅ STAGE: UPDATE" st)), Ok tt).
Proof. reflexivity. Qed.

(** The run from DO, for every state in which DO finds its message. *)
Lemma run_DO fuel st message :
  final_response st = Some message →
  run_from g (S (S (S fuel))) "DO" st =
    match final_status st with
    | Some RESOLVED =>
        (["DO"; "CLOSE"; "COMPLETE"],
         Completed (log_append "✅ STAGE: COMPLETE - Workflow finished."
                      (log_append "✅ STAGE: CLOSE" (log_append "✅ STAGE: DO" st))))
    | Some ESCALATED => (["DO"], Completed (log_append "✅ STAGE: DO" st))
    | None =>
        (["DO"], Failed (StageError (KeyError "final_status"))
                   (log_append "✅ STAGE: DO" st))
    end.
Proof.
  intros Hmsg. rewrite step_DO. cbv zeta.
  rewrite (do_returns st message Hmsg).
  destruct (final_status st) as [[]|]; [|done..].
  by rewrite step_CLOSE, close_returns.
Qed.

Ltac not_in_trace H :=
  exfalso; revert H; rewrite ?elem_of_cons, elem_of_nil; naive_solver.

(** A run that gets as far as DO completes along one of the two paths. *)
Lemma run_reaching_DO st trace r :
  invoke g st = (trace, r) → "DO" ∈ trace →
  ∃ fin, r = Completed fin ∧
    ((trace = resolved_path ∧ final_status fin = Some RESOLVED) ∨
     (trace = escalated_path ∧ final_status fin = Some ESCALATED)).
Proof.
  unfold invoke.
  change (entry_point g) with (Some "INTAKE"). cbv beta iota.
  unfold recursion_limit. intros H Hin.
  rewrite (step_static g "INTAKE" stage_intake "UNDERSTAND") in H by done.
  rewrite intake_spec in H.
  rewrite (step_static g "UNDERSTAND"
             (stage_understand common_client AtlasMcpClient) "PREPARE") in H by done.
  destruct (stage_understand _ _ _) as [st2 [u2|e]];
    [|simplify_eq; not_in_trace Hin].
  rewrite (step_static g "PREPARE"
             (stage_prepare common_client AtlasMcpClient) "RETRIEVE") in H by done.
  destruct (stage_prepare _ _ _) as [st3 [u3|e]];
    [|simplify_eq; not_in_trace Hin].
  rewrite (step_static g "RETRIEVE" (stage_retrieve AtlasMcpClient) "DECIDE") in H
    by done.
  destruct (stage_retrieve _ _) as [st4 [u4|e]];
    [|simplify_eq; not_in_trace Hin].
  rewrite step_DECIDE in H.
  destruct (stage_decide _ _ _) as [st5 [u5|e]];
    [|simplify_eq; not_in_trace Hin].
  destruct (route_after_decision st5) as [label|e] eqn:Hroute;
    [|simplify_eq; not_in_trace Hin].
  destruct (route_after_decision_label _ _ Hroute) as [-> | ->].
  - rewrite (step_static g "CREATE" (stage_create common_client) "DO") in H by done.
    destruct (stage_create common_client st5) as [st6 [u6|e]] eqn:Hcreate;
      [|simplify_eq; not_in_trace Hin].
    apply create_ok in Hcreate as (resp & ->).
    rewrite (run_DO _ _ resp) in H by done. simpl in H. simplify_eq.
    eexists. split; [done|]. by left.
  - rewrite (step_static g "UPDATE" (stage_update AtlasMcpClient) "DO") in H by done.
    rewrite update_returns in H.
    rewrite (run_DO _ _ "This ticket has been escalated for human review.") in H
      by done.
    simpl in H. simplify_eq.
    eexists. split; [done|]. by right.
Qed.

End SourceAtlas.

(** C4.  The router after DO answers CLOSE exactly when the final status is
    RESOLVED and the end marker exactly when it is ESCALATED.  From DO, a
    resolved run executes CLOSE and then COMPLETE; an escalated run ends at DO
    and executes neither.  A whole run that gets as far as DO is one of
    these two. *)
Theorem route_after_do_closes_resolved (common_client : CommonMcp)
    (st : AgentState) :
  (route_after_do st = Ok "CLOSE" ↔ final_status st = Some RESOLVED) ∧
  (route_after_do st = Ok END ↔ final_status st = Some ESCALATED) ∧
  (∀ fuel message,
     final_response st = Some message →
     (final_status st = Some RESOLVED →
      ∃ fin, run_from (workflow common_client AtlasMcpClient) (S (S (S fuel))) "DO" st
               = (["DO"; "CLOSE"; "COMPLETE"], Completed fin)) ∧
     (final_status st = Some ESCALATED →
      ∃ fin, run_from (workflow common_client AtlasMcpClient) (S (S (S fuel))) "DO" st
               = (["DO"], Completed fin))) ∧
  (∀ trace r,
     invoke (workflow common_client AtlasMcpClient) st = (trace, r) →
     "DO" ∈ trace →
     ∃ fin, r = Completed fin ∧
       ((final_status fin = Some RESOLVED ∧
         ∃ before, trace = before ++ ["DO"; "CLOSE"; "COMPLETE"]) ∨
        (final_status fin = Some ESCALATED ∧
         (∃ before, trace = before ++ ["DO"]) ∧
         ("CLOSE" ∉ trace) ∧ ("COMPLETE" ∉ trace)))).
Proof.
  split; [|split; [|split]].
  - unfold route_after_do. destruct (final_status st) as [[]|]; by split.
  - unfold route_after_do. destruct (final_status st) as [[]|]; by split.
  - intros fuel message Hmsg. split; intros Hf;
      rewrite (run_DO common_client fuel st message Hmsg), Hf; by eexists.
  - intros trace r Hrun Hin.
    destruct (run_reaching_DO common_client st trace r Hrun Hin)
      as (fin & -> & [(-> & Hf) | (-> & Hf)]).
    + exists fin. split; [done|]. left. split; [done|].
      by exists ["INTAKE"; "UNDERSTAND"; "PREPARE"; "RETRIEVE"; "DECIDE"; "CREATE"].
    + exists fin. split; [done|]. right. split; [done|]. split; [|split].
      * by exists ["INTAKE"; "UNDERSTAND"; "PREPARE"; "RETRIEVE"; "DECIDE"; "UPDATE"].
      * unfold escalated_path. rewrite !elem_of_cons, elem_of_nil. naive_solver.
      * unfold escalated_path. rewrite !elem_of_cons, elem_of_nil. naive_solver.
Qed.

Lemma route_after_do_closes_resolved_witness :
  (∃ fin, run_from (workflow (CommonMcpClient demo_repr) AtlasMcpClient) 25 "DO"
            sample_resolved = (["DO"; "CLOSE"; "COMPLETE"], Completed fin)) ∧
  (∃ fin, run_from (workflow (CommonMcpClient demo_repr) AtlasMcpClient) 25 "DO"
            sample_escalated = (["DO"], Completed fin)).
Proof.
  split.
  - refine (proj1 (proj1 (proj2 (proj2 (route_after_do_closes_resolved
              (CommonMcpClient demo_repr) sample_resolved))) 22 "Hello" _) _);
      reflexivity.
  - refine (proj2 (proj1 (proj2 (proj2 (route_after_do_closes_resolved
              (CommonMcpClient demo_repr) sample_escalated))) 22
              "This ticket has been escalated for human review." _) _);
      reflexivity.
Defined.

(** ** C5: routing after DECIDE *)

Lemma value_eq_str_true v s : value_eq_str v s = true ↔ v = VStr s.
Proof.
  destruct v; simpl; try (split; [discriminate | intros ?; simplify_eq]).
  rewrite bool_decide_eq_true. split; [by intros -> | by intros [= ->]].
Qed.

(** C5.  On a state whose decision has an outcome, the router after DECIDE
    answers CREATE exactly when the outcome is CREATE_RESPONSE and UPDATE for
    every other outcome.  Both labels are in the table of the conditional
    edge, and whatever the router answers on any state is found there: the
    branch never fails on an unhandled label.  Every state DECIDE returns
    has a decision with an outcome. *)
Theorem route_after_decision_exhaustive (common_client : CommonMcp)
    (atlas_client : AtlasMcp) (st : AgentState) (d : dict) (outcome : value) :
  decision st = Some d →
  d !! "outcome" = Some outcome →
  (route_after_decision st = Ok "CREATE" ↔ outcome = VStr "CREATE_RESPONSE") ∧
  (route_after_decision st = Ok "UPDATE" ↔ outcome ≠ VStr "CREATE_RESPONSE") ∧
  (∃ path_map,
     assoc "DECIDE" (branches (workflow common_client atlas_client))
       = Some (route_after_decision, path_map) ∧
     assoc "CREATE" path_map = Some "CREATE" ∧
     assoc "UPDATE" path_map = Some "UPDATE") ∧
  (∀ st' label,
     next_target (workflow common_client atlas_client) "DECIDE" st'
       = inl (UnhandledRouteLabel label) → False) ∧
  (∀ st0 st' u,
     stage_decide common_client atlas_client st0 = (st', Ok u) →
     ∃ d' outcome', decision st' = Some d' ∧ d' !! "outcome" = Some outcome').
Proof.
  intros Hd Hout.
  assert (route_after_decision st =
            if value_eq_str outcome "CREATE_RESPONSE" then Ok "CREATE"
            else Ok "UPDATE") as Hroute.
  { unfold route_after_decision, subscript. by rewrite Hd, Hout. }
  pose proof (value_eq_str_true outcome "CREATE_RESPONSE") as Hspec.
  split; [|split; [|split; [|split]]].
  - rewrite Hroute. destruct (value_eq_str outcome "CREATE_RESPONSE").
    + split; [intros _; by apply Hspec | done].
    + split; [done | intros Heq; apply Hspec in Heq; done].
  - rewrite Hroute. destruct (value_eq_str outcome "CREATE_RESPONSE").
    + split; [done | intros Hne; destruct Hne; by apply Hspec].
    + split; [intros _ Heq; apply Hspec in Heq; done | done].
  - by exists [("CREATE", "CREATE"); ("UPDATE", "UPDATE")].
  - intros st' label. rewrite next_DECIDE.
    by destruct (route_after_decision st').
  - intros st0 st' u Hdec.
    apply decide_ok in Hdec as (d' & score & text & Hsome & ->).
    destruct (d' !! "outcome") as [outcome'|] eqn:Ho; [|done].
    by exists d', outcome'.
Qed.

Lemma route_after_decision_exhaustive_witness :
  route_after_decision
    (set_decision (<["score" := VInt 75]> (<["outcome" := VStr "ESCALATE"]> ∅))
       sample_input) = Ok "UPDATE".
Proof.
  refine (proj2 (proj1 (proj2 (route_after_decision_exhaustive
            (CommonMcpClient demo_repr) AtlasMcpClient
            (set_decision (<["score" := VInt 75]> (<["outcome" := VStr "ESCALATE"]> ∅))
               sample_input)
            (<["score" := VInt 75]> (<["outcome" := VStr "ESCALATE"]> ∅))
            (VStr "ESCALATE") _ _))) _).
  - reflexivity.
  - reflexivity.
  - discriminate.
Defined.

(** ** C6: the log is append-only *)

(** C6.  Every stage execution leaves the old log as a prefix of the new one
    with at least one entry added at the end, whether the stage returns or
    raises; so along any run, complete or failed, the log at the start is a
    prefix of the log at the end and its length never decreases. *)
Theorem log_is_append_only (common_client : CommonMcp) (atlas_client : AtlasMcp) :
  (∀ n stage st,
     assoc n (nodes (workflow common_client atlas_client)) = Some stage →
     ∃ entry extra, log (stage st).1 = log st ++ entry :: extra) ∧
  (∀ fuel n st,
     log st `prefix_of`
       log (result_state (run_from (workflow common_client atlas_client) fuel n st).2)) ∧
  (∀ fuel n st,
     (length (log st) ≤
        length (log (result_state
                       (run_from (workflow common_client atlas_client) fuel n st).2)))%nat).
Proof.
  assert (∀ fuel n st,
            log st `prefix_of`
              log (result_state
                     (run_from (workflow common_client atlas_client) fuel n st).2))
    as Hprefix.
  { apply run_log_prefix. intros n stage st Hn.
    by apply (node_log_prefix common_client atlas_client n). }
  split; [|split].
  - intros n stage st Hn. by apply (node_appends common_client atlas_client n).
  - exact Hprefix.
  - intros fuel n st. apply prefix_length, Hprefix.
Qed.

Lemma log_is_append_only_witness :
  ∃ entry extra,
    log (stage_decide (CommonMcpClient demo_repr) AtlasMcpClient
           sample_without_article).1
      = log sample_without_article ++ entry :: extra.
Proof.
  apply (proj1 (log_is_append_only (CommonMcpClient demo_repr) AtlasMcpClient)
           "DECIDE").
  reflexivity.
Defined.

(** ** C7: no entity, no article, escalation *)

Section SourceClients.

Variable py_repr : value → string.

#[local] Abbreviation g := (workflow (CommonMcpClient py_repr) AtlasMcpClient).

(** The state an escalated run ends in, from the state RETRIEVE received. *)
Lemma run_RETRIEVE_without_entities fuel st sd :
  structured_data st = Some sd →
  sd !! "extracted_entities" = Some (VList []) →
  run_from g (S (S (S (S (S (S fuel)))))) "RETRIEVE" st =
    (["RETRIEVE"; "DECIDE"; "UPDATE"; "DO"],
     Completed
       (log_append "✅ STAGE: DO"
          (set_final_status ESCALATED
             (set_final_response "This ticket has been escalated for human review."
                (log_append "✅ STAGE: UPDATE"
                   (log_append
                      (decision_log 75 "Solution score is low. Escalating to human agent.")
                      (set_decision
                         (merge_dict
                            (<["score" := VInt 75]>
                               (<["outcome" := VStr "ESCALATE"]> ∅))
                            (str_values
                               (<["escalation_status" :=
                                    "Assigned to Tier 2 Support"]> ∅)))
                         (log_append "✅ STAGE: DECIDE"
                            (set_retrieved_kb_article ∅
                               (log_append "✅ STAGE: RETRIEVE" st)))))))))).
Proof.
  intros Hsd Hent.
  rewrite (step_static _ "RETRIEVE" (stage_retrieve AtlasMcpClient) "DECIDE") by done.
  assert (stage_retrieve AtlasMcpClient st =
            (set_retrieved_kb_article ∅ (log_append "✅ STAGE: RETRIEVE" st), Ok tt))
    as ->.
  { unfold stage_retrieve. unfold_monad. simpl. rewrite Hsd. simpl.
    rewrite Hent. reflexivity. }
  rewrite step_DECIDE.
  rewrite (decide_escalate (CommonMcpClient py_repr) AtlasMcpClient _ ∅
             (<["solution_score" := 75%Z]> ∅) 75
             (<["escalation_status" := "Assigned to Tier 2 Support"]> ∅))
    by (vm_compute; reflexivity).
  match goal with
  | |- context [route_after_decision ?s] =>
      assert (route_after_decision s = Ok "UPDATE") as ->
        by (vm_compute; reflexivity)
  end.
  rewrite (step_static _ "UPDATE" (stage_update AtlasMcpClient) "DO") by done.
  rewrite update_returns.
  by rewrite (run_DO _ _ _ "This ticket has been escalated for human review.").
Qed.

(** The same from the payload: a query that names neither the product nor
    the error code yields no entity, and the whole run is the escalated path,
    provided the flag calculation of PREPARE returns (it raises
    [OverflowError] on an urgent ticket whose priority exceeds the floats). *)
Lemma query_without_entities_escalates st flags :
  contains "Pro-Widget X" (query st) = false →
  contains "error code 42" (query st) = false →
  add_flags_calculations (CommonMcpClient py_repr) (priority st) (query st)
    = Ok flags →
  ∃ fin, invoke g st = (escalated_path, Completed fin) ∧
         retrieved_kb_article fin = Some ∅ ∧
         final_status fin = Some ESCALATED.
Proof.
  intros Hpw Hec Hflags. unfold invoke.
  change (entry_point g) with (Some "INTAKE"). cbv beta iota.
  unfold recursion_limit.
  rewrite (step_static g "INTAKE" stage_intake "UNDERSTAND") by done.
  rewrite intake_spec.
  rewrite (step_static g "UNDERSTAND"
             (stage_understand (CommonMcpClient py_repr) AtlasMcpClient) "PREPARE")
    by done.
  assert (∃ sd, stage_understand (CommonMcpClient py_repr) AtlasMcpClient
                  (log_append "✅ STAGE: INTAKE - Payload accepted." st)
                = (set_structured_data sd
                     (log_append "✅ STAGE: UNDERSTAND"
                        (log_append "✅ STAGE: INTAKE - Payload accepted." st)),
                   Ok tt) ∧
                sd !! "extracted_entities" = Some (VList []))
    as (sd & -> & Hent).
  { unfold stage_understand. unfold_monad. simpl. rewrite Hpw, Hec.
    destruct (contains "error code" (lower (query st)));
      eexists; (split; [reflexivity|]); reflexivity. }
  rewrite (step_static g "PREPARE"
             (stage_prepare (CommonMcpClient py_repr) AtlasMcpClient) "RETRIEVE")
    by done.
  assert (∃ ed, stage_prepare (CommonMcpClient py_repr) AtlasMcpClient
                  (set_structured_data sd
                     (log_append "✅ STAGE: UNDERSTAND"
                        (log_append "✅ STAGE: INTAKE - Payload accepted." st)))
                = (set_enriched_data ed
                     (log_append "✅ STAGE: PREPARE"
                        (set_structured_data sd
                           (log_append "✅ STAGE: UNDERSTAND"
                              (log_append "✅ STAGE: INTAKE - Payload accepted." st)))),
                   Ok tt))
    as (ed & ->).
  { unfold stage_prepare. unfold_monad.
    cbn [query priority ticket_id email set_structured_data log_append].
    change (normalize_fields (CommonMcpClient py_repr) (ticket_id st))
      with (@Ok (gmap string string)
              (<["normalized_ticket_id" := upper (strip (ticket_id st))]> ∅)).
    change (enrich_records AtlasMcpClient (email st))
      with (@Ok dict (<["customer_sla" := VStr "Gold"]>
                        (<["historical_ticket_count" := VInt 5]> ∅))).
    cbv beta iota. rewrite Hflags. by eexists. }
  rewrite (run_RETRIEVE_without_entities _ _ sd) by done.
  eexists. split; [reflexivity|]. split; reflexivity.
Qed.

End SourceClients.

(** C7.  On a state whose [extracted_entities] is the empty list, the search
    answers the empty article, RETRIEVE stores it, DECIDE runs on it and the
    scorer gives it 75, below the threshold of 90; the run continues through
    UPDATE and ends at DO with the ticket escalated. *)
Theorem no_entities_escalates (py_repr : value → string) (st : AgentState)
    (sd : dict) :
  structured_data st = Some sd →
  sd !! "extracted_entities" = Some (VList []) →
  knowledge_base_search AtlasMcpClient (VList [])
    = Ok (<["retrieved_kb_article" := ∅]> ∅) ∧
  solution_evaluation (CommonMcpClient py_repr) ∅
    = Ok (<["solution_score" := 75%Z]> ∅) ∧
  (75 <? 90)%Z = true ∧
  ∃ fin d,
    app_from py_repr "RETRIEVE" st
      = (["RETRIEVE"; "DECIDE"; "UPDATE"; "DO"], Completed fin) ∧
    retrieved_kb_article fin = Some ∅ ∧
    decision fin = Some d ∧
    d !! "score" = Some (VInt 75) ∧
    d !! "outcome" = Some (VStr "ESCALATE") ∧
    final_status fin = Some ESCALATED.
Proof.
  intros Hsd Hent. split; [reflexivity | split; [reflexivity | split; [reflexivity|]]].
  unfold app_from, recursion_limit.
  rewrite (run_RETRIEVE_without_entities py_repr _ st sd Hsd Hent).
  eexists _, _. repeat split; reflexivity.
Qed.

Lemma no_entities_escalates_witness :
  ∃ fin,
    app_from demo_repr "RETRIEVE" sample_without_entities
      = (["RETRIEVE"; "DECIDE"; "UPDATE"; "DO"], Completed fin) ∧
    final_status fin = Some ESCALATED.
Proof.
  destruct (no_entities_escalates demo_repr sample_without_entities
              (<["extracted_entities" := VList []]> ∅))
    as (_ & _ & _ & fin & d & Hrun & _ & _ & _ & _ & Hf).
  - reflexivity.
  - reflexivity.
  - exists fin. split; assumption.
Defined.

(** ** C8: DO touches only the log *)

(** C8.  Whatever the state and whatever the notification call does, the
    state DO leaves is the input state with the DO entry appended to the log:
    every other field is unchanged. *)
Theorem stage_do_only_logs (atlas_client : AtlasMcp) (st : AgentState) :
  let st' := (stage_do atlas_client st).1 in
  st' = log_append "✅ STAGE: DO" st ∧
  log st' = log st ++ ["✅ STAGE: DO"] ∧
  customer_name st' = customer_name st ∧
  email st' = email st ∧
  query st' = query st ∧
  priority st' = priority st ∧
  ticket_id st' = ticket_id st ∧
  structured_data st' = structured_data st ∧
  enriched_data st' = enriched_data st ∧
  retrieved_kb_article st' = retrieved_kb_article st ∧
  decision st' = decision st ∧
  final_response st' = final_response st ∧
  final_status st' = final_status st.
Proof.
  intros st'. subst st'. rewrite do_state. repeat split.
Qed.

(** ** C10: log entries per stage and per path *)










Section ScoredRuns.

Variable common_client : CommonMcp.
Variable atlas_client : AtlasMcp.

#[local] Abbreviation g := (workflow common_client atlas_client).


End ScoredRuns.




(** * Further properties of the code *)

(** ** Strings *)

Lemma append_nil_l (s : string) : "" +:+ s = s.
Proof. reflexivity. Qed.

Lemma append_cons (c : ascii) (a b : string) :
  String c a +:+ b = String c (a +:+ b).
Proof. reflexivity. Qed.

Lemma append_assoc (a b c : string) : (a +:+ b) +:+ c = a +:+ (b +:+ c).
Proof.
  induction a as [|x a IH]; [done|].
  by rewrite !append_cons, IH.
Qed.

Lemma prefix_spec (n h : string) :
  String.prefix n h = true ↔ ∃ post, h = n +:+ post.
Proof.
  revert h. induction n as [|c n IH]; intros h.
  - split; [intros _; exists h; reflexivity | intros _; by destruct h].
  - destruct h as [|c' h]; simpl.
    + split; [done | intros [post Hp]; discriminate].
    + destruct (Ascii.ascii_dec c c') as [->|Hne].
      * rewrite IH. split; intros [post Hp]; exists post.
        -- by rewrite Hp.
        -- rewrite append_cons in Hp. by injection Hp.
      * split; [done | intros [post Hp]].
        rewrite append_cons in Hp. injection Hp as ??; congruence.
Qed.

Lemma contains_spec (n h : string) :
  contains n h = true ↔ ∃ pre post, h = pre +:+ n +:+ post.
Proof.
  induction h as [|c h IH].
  - destruct n as [|c n]; simpl.
    + split; [intros _; by exists "", "" | done].
    + split; [done | intros (pre & post & Hp)].
      destruct pre; discriminate.
  - change (contains n (String c h))
      with (String.prefix n (String c h) || contains n h).
    rewrite orb_true_iff, prefix_spec, IH. split.
    + intros [[post Hp] | (pre & post & Hp)].
      * by exists "", post.
      * exists (String c pre), post. by rewrite Hp.
    + intros (pre & post & Hp). destruct pre as [|c' pre].
      * left. by exists post.
      * right. rewrite append_cons in Hp. injection Hp as -> Hp. by exists pre, post.
Qed.

Lemma map_string_app (f : ascii → ascii) (a b : string) :
  map_string f (a +:+ b) = map_string f a +:+ map_string f b.
Proof.
  induction a as [|c a IH]; [done|].
  rewrite append_cons. simpl. by rewrite IH, append_cons.
Qed.

Lemma contains_lower (n h : string) :
  contains n h = true → contains (lower n) (lower h) = true.
Proof.
  rewrite !contains_spec. intros (pre & post & ->).
  exists (lower pre), (lower post). unfold lower. by rewrite !map_string_app.
Qed.

Lemma contains_trans (a b c : string) :
  contains a b = true → contains b c = true → contains a c = true.
Proof.
  rewrite !contains_spec. intros (p1 & q1 & ->) (p2 & q2 & ->).
  exists (p2 +:+ p1), (q1 +:+ q2). by rewrite !append_assoc.
Qed.

Lemma upper_ascii_idem (c : ascii) : upper_ascii (upper_ascii c) = upper_ascii c.
Proof. destruct c as [[] [] [] [] [] [] [] []]; reflexivity. Qed.

Lemma is_space_upper (c : ascii) : is_space (upper_ascii c) = is_space c.
Proof. destruct c as [[] [] [] [] [] [] [] []]; reflexivity. Qed.

Lemma upper_idem (s : string) : upper (upper s) = upper s.
Proof.
  unfold upper. induction s as [|c s IH]; [done|].
  cbn [map_string]. by rewrite upper_ascii_idem, IH.
Qed.

Lemma lstrip_upper (s : string) : lstrip (upper s) = upper (lstrip s).
Proof.
  unfold upper. induction s as [|c s IH]; [done|].
  cbn [map_string lstrip]. rewrite is_space_upper.
  by destruct (is_space c).
Qed.

Lemma rstrip_upper (s : string) : rstrip (upper s) = upper (rstrip s).
Proof.
  unfold upper in *. induction s as [|c s IH]; [done|].
  cbn [map_string rstrip]. rewrite IH, is_space_upper.
  destruct (rstrip s); cbn [map_string]; [by destruct (is_space c) | done].
Qed.

Lemma strip_upper (s : string) : strip (upper s) = upper (strip s).
Proof. unfold strip. by rewrite lstrip_upper, rstrip_upper. Qed.

Lemma lstrip_clean (s : string) : starts_clean (lstrip s) = true.
Proof.
  induction s as [|c s IH]; [done|]. cbn [lstrip].
  destruct (is_space c) eqn:Hc; [done|]. cbn [starts_clean]. by rewrite Hc.
Qed.

Lemma lstrip_of_clean (s : string) : starts_clean s = true → lstrip s = s.
Proof.
  destruct s as [|c s]; [done|]. cbn [starts_clean lstrip].
  destruct (is_space c); [discriminate | reflexivity].
Qed.

Lemma rstrip_clean (s : string) :
  starts_clean s = true → starts_clean (rstrip s) = true.
Proof.
  destruct s as [|c s]; [done|]. cbn [starts_clean rstrip]. intros Hc.
  destruct (rstrip s); [|exact Hc].
  destruct (is_space c) eqn:E; [discriminate|].
  cbn [starts_clean]. by rewrite E.
Qed.

Lemma rstrip_idem (s : string) : rstrip (rstrip s) = rstrip s.
Proof.
  induction s as [|c s IH]; [done|]. cbn [rstrip].
  destruct (rstrip s) as [|c' r] eqn:Hr.
  - destruct (is_space c) eqn:Hc; [done|]. cbn [rstrip]. by rewrite Hc.
  - change (rstrip (String c (String c' r)))
      with (match rstrip (String c' r) with
            | EmptyString => if is_space c then EmptyString else String c EmptyString
            | r' => String c r'
            end).
    by rewrite IH.
Qed.

Lemma strip_idem (s : string) : strip (strip s) = strip s.
Proof.
  unfold strip.
  rewrite (lstrip_of_clean (rstrip (lstrip s)))
    by apply rstrip_clean, lstrip_clean.
  apply rstrip_idem.
Qed.

(** ** Conversion of integers to floats *)

Section FloatConversion.

#[local] Open Scope Z_scope.

Lemma digits2_pos_size (p : positive) : digits2_pos p = Pos.size p.
Proof. induction p; simpl; congruence. Qed.

Lemma Zdigits2_le (m k : Z) : 0 ≤ m → 0 ≤ k → m < 2 ^ k → Zdigits2 m ≤ k.
Proof.
  intros Hm Hk Hlt. destruct m as [|p|p]; simpl; [lia| |lia].
  rewrite digits2_pos_size.
  destruct (Z_lt_le_dec k (Z.pos (Pos.size p))) as [Hgt|]; [|done].
  exfalso.
  pose proof (Pos.size_le p) as Hle.
  assert (2 ^ Z.pos (Pos.size p) ≤ 2 * Z.pos p) as Hz.
  { change (2 * Z.pos p) with (Z.pos p~0).
    rewrite <- Pos2Z.inj_pow. by apply Pos2Z.pos_le_pos. }
  assert (2 ^ (k + 1) ≤ 2 ^ Z.pos (Pos.size p)) by (apply Z.pow_le_mono_r; lia).
  rewrite Z.pow_add_r in * by lia. lia.
Qed.

Lemma shr_1_spec (mrs : shr_record) :
  0 ≤ shr_m mrs → shr_m (shr_1 mrs) = shr_m mrs / 2 ∧ 0 ≤ shr_m (shr_1 mrs).
Proof.
  destruct mrs as [m r s]. cbn [shr_m]. intros Hm.
  rewrite <- Z.div2_div.
  destruct m as [|[p|p|]|p]; cbn [shr_1 shr_m Z.div2]; try lia; split; lia || reflexivity.
Qed.

Lemma iter_shr_1_spec (n : positive) : ∀ mrs,
  0 ≤ shr_m mrs →
  shr_m (SpecFloat.iter_pos shr_1 n mrs) = shr_m mrs / 2 ^ Z.pos n ∧
  0 ≤ shr_m (SpecFloat.iter_pos shr_1 n mrs).
Proof.
  induction n as [n IH|n IH|]; intros mrs Hm; simpl.
  - destruct (shr_1_spec mrs Hm) as [E1 P1].
    destruct (IH _ P1) as [E2 P2]. destruct (IH _ P2) as [E3 P3].
    split; [|done]. rewrite E3, E2, E1.
    rewrite !Z.div_div by lia. f_equal.
    rewrite Pos2Z.inj_xI. rewrite <- !Z.pow_add_r, <- Z.pow_succ_r by lia.
    f_equal. lia.
  - destruct (IH _ Hm) as [E2 P2]. destruct (IH _ P2) as [E3 P3].
    split; [|done]. rewrite E3, E2.
    rewrite !Z.div_div by lia. f_equal.
    rewrite Pos2Z.inj_xO. rewrite <- !Z.pow_add_r by lia. f_equal. lia.
  - destruct (shr_1_spec mrs Hm) as [E1 P1]. split; [|done]. by rewrite E1.
Qed.

Lemma shr_record_of_loc_m (m : Z) (l : location) : shr_m (shr_record_of_loc m l) = m.
Proof. by destruct l as [|[]]. Qed.

Lemma shr_fexp_spec (m e : Z) (l : location) :
  0 ≤ m →
  ∃ mrs' e',
    shr_fexp prec emax m e l = (mrs', e') ∧
    0 ≤ shr_m mrs' ∧
    e' = Z.max e (fexp prec emax (Zdigits2 m + e)) ∧
    shr_m mrs' = m / 2 ^ (e' - e).
Proof.
  intros Hm. unfold shr_fexp, shr.
  pose proof (shr_record_of_loc_m m l) as Hrec.
  destruct (fexp prec emax (Zdigits2 m + e) - e) as [|n|n] eqn:Hn.
  - eexists _, _. split; [reflexivity|]. rewrite Hrec.
    split; [done|]. split; [lia|].
    replace (e - e) with 0 by lia. by rewrite Z.div_1_r.
  - destruct (iter_shr_1_spec n (shr_record_of_loc m l)) as [E P];
      [by rewrite Hrec|].
    eexists _, _. split; [reflexivity|].
    split; [done|]. split; [lia|].
    rewrite E, Hrec. f_equal. f_equal. lia.
  - eexists _, _. split; [reflexivity|]. rewrite Hrec.
    split; [done|]. split; [lia|].
    replace (e - e) with 0 by lia. by rewrite Z.div_1_r.
Qed.

Lemma round_nearest_even_bounds (m : Z) (l : location) :
  m ≤ round_nearest_even m l ≤ m + 1.
Proof. destruct l as [|[]]; simpl; [lia | | lia | lia]. destruct (Z.even m); lia. Qed.

Lemma fexp_eq (x : Z) : fexp prec emax x = Z.max (x - 53) (-1074).
Proof. reflexivity. Qed.

Lemma binary_round_aux_finite (sx : bool) (m e k : Z) :
  0 ≤ m → 0 ≤ k → m < 2 ^ k → e ≤ 971 → k + e ≤ 1023 →
  is_finite (binary_round_aux prec emax sx m e loc_Exact) = true.
Proof.
  intros Hm Hk Hlt He Hke. unfold binary_round_aux.
  destruct (shr_fexp_spec m e loc_Exact Hm) as (mrs1 & e1 & -> & P1 & E1 & M1).
  set (m2 := round_nearest_even (shr_m mrs1) (loc_of_shr_record mrs1)).
  pose proof (round_nearest_even_bounds (shr_m mrs1) (loc_of_shr_record mrs1)) as B2.
  fold m2 in B2.
  assert (0 ≤ m2) as Hm2 by lia.
  destruct (shr_fexp_spec m2 e1 loc_Exact Hm2) as (mrs2 & e2 & -> & P2 & E2 & M2).
  pose proof (Zdigits2_le m k Hm Hk Hlt) as Hd.
  rewrite fexp_eq in E1, E2.
  assert (e ≤ e1 ≤ 971) as He1 by lia.
  assert (Zdigits2 m2 + e1 ≤ 1024) as Hd2.
  { destruct (Z_le_gt_dec (e1 - e) k) as [Hsmall|Hbig].
    - assert (m2 < 2 ^ (k - (e1 - e) + 1)) as Hb.
      { assert (shr_m mrs1 < 2 ^ (k - (e1 - e))).
        { rewrite M1. apply Z.div_lt_upper_bound; [apply Z.pow_pos_nonneg; lia|].
          rewrite <- Z.pow_add_r by lia. by replace (e1 - e + (k - (e1 - e))) with k by lia. }
        rewrite Z.pow_add_r by lia. lia. }
      pose proof (Zdigits2_le m2 (k - (e1 - e) + 1) Hm2 ltac:(lia) Hb). lia.
    - assert (shr_m mrs1 = 0) as Hz.
      { rewrite M1. apply Z.div_small. split; [done|].
        eapply Z.lt_le_trans; [exact Hlt|]. apply Z.pow_le_mono_r; lia. }
      assert (m2 < 2 ^ 1) as Hb by (simpl; lia).
      pose proof (Zdigits2_le m2 1 Hm2 ltac:(lia) Hb). lia. }
  assert (e2 ≤ 971) as He2 by lia.
  destruct (shr_m mrs2) as [|p|p]; [done| |lia].
  change (emax - prec) with 971.
  destruct (Z.leb_spec e2 971); [done | lia].
Qed.

Lemma iter_xO_spec (d p : positive) :
  Z.pos (Pos.iter xO p d) = Z.pos p * 2 ^ Z.pos d.
Proof.
  induction d as [|d IH] using Pos.peano_ind.
  - simpl. lia.
  - rewrite Pos.iter_succ, Pos2Z.inj_xO, IH, Pos2Z.inj_succ, Z.pow_succ_r by lia.
    lia.
Qed.

Lemma binary_round_finite (sx : bool) (p : positive) :
  Z.pos p < 2 ^ 1023 →
  is_finite (binary_round prec emax sx p 0) = true.
Proof.
  intros Hp. unfold binary_round, shl_align.
  rewrite fexp_eq.
  destruct (Z.max (Z.pos (digits2_pos p) + 0 - 53) (-1074) - 0) as [|d|d] eqn:Hd.
  - apply (binary_round_aux_finite sx (Z.pos p) 0 1023); lia.
  - apply (binary_round_aux_finite sx (Z.pos p) 0 1023); lia.
  - rewrite iter_xO_spec.
    apply (binary_round_aux_finite sx _ _ (1023 + Z.pos d)); try lia.
    rewrite Z.pow_add_r by lia.
    apply Z.mul_lt_mono_pos_r; [apply Z.pow_pos_nonneg; lia | done].
Qed.

(** Every [int] below [2 ** 1023] in magnitude converts to a float. *)
Lemma float_of_int_in_range (z : Z) :
  Z.abs z < 2 ^ 1023 → ∃ f, float_of_int z = Ok f.
Proof.
  intros Hz. unfold float_of_int, binary_normalize.
  destruct z as [|p|p].
  - by eexists.
  - pose proof (binary_round_finite false p ltac:(lia)) as Hf.
    destruct (binary_round prec emax false p 0); try done; by eexists.
  - pose proof (binary_round_finite true p ltac:(lia)) as Hf.
    destruct (binary_round prec emax true p 0); try done; by eexists.
Qed.

End FloatConversion.

Lemma contains_here (x b : string) : contains x (x +:+ b) = true.
Proof. apply contains_spec. by exists "", b. Qed.

Lemma contains_app_r (x a b : string) :
  contains x b = true → contains x (a +:+ b) = true.
Proof.
  rewrite !contains_spec. intros (pre & post & ->).
  exists (a +:+ pre), post. by rewrite append_assoc.
Qed.

Lemma take_string_all (n : nat) (s : string) :
  (String.length s ≤ n)%nat → take_string n s = s.
Proof.
  revert n. induction s as [|c s IH]; intros [|n] Hn; simpl in *; try done; try lia.
  rewrite IH; [done | lia].
Qed.

Ltac find_substring :=
  repeat first [ apply contains_here | apply contains_app_r ].

Lemma existsb_value_eq_str (s : string) (l : list value) :
  existsb (λ x, value_eq_str x s) l = true ↔ VStr s ∈ l.
Proof.
  rewrite existsb_exists. split.
  - intros (x & Hin & Hx). apply list_elem_of_In in Hin.
    destruct x; simpl in Hx; try done.
    apply bool_decide_eq_true in Hx. by subst.
  - intros Hin. exists (VStr s). split; [by apply list_elem_of_In|].
    simpl. by apply bool_decide_eq_true.
Qed.

(** In range, [add_flags_calculations] returns, with the urgency flag. *)
Lemma add_flags_in_range (py_repr : value → string) (priority : Z) (query : string) :
  (Z.abs priority < 2 ^ 1023)%Z →
  ∃ calculated,
    add_flags_calculations (CommonMcpClient py_repr) priority query
      = Ok (<["is_urgent_flag" :=
                VBool (contains "urgent" (lower query) || (3 <? priority)%Z)]>
              (<["calculated_priority" := calculated]> ∅)).
Proof.
  intros Hp. destruct (float_of_int_in_range priority Hp) as [f Hf].
  simpl. unfold int_times_float. rewrite Hf.
  destruct (contains "urgent" (lower query) || (3 <? priority)%Z); by eexists.
Qed.

(** ** The simulated COMMON client *)

(** X1.  [parse_request_text] returns for every query, passing the query
    through unchanged under [structured_query].  The intent is
    "technical_support" exactly when the lower-cased query contains
    "error code", and "general_inquiry" otherwise; it depends on the query only
    through its lower-casing.  Every query in which [extract_entities] would
    find "error code 42" is a technical one. *)
Theorem parse_request_text_intent (py_repr : value → string) (query : string) :
  ∃ intent,
    parse_request_text (CommonMcpClient py_repr) query
      = Ok (<["intent" := VStr intent]> (<["structured_query" := VStr query]> ∅)) ∧
    (intent = "technical_support" ∨ intent = "general_inquiry") ∧
    (intent = "technical_support" ↔ contains "error code" (lower query) = true) ∧
    (∀ query', lower query' = lower query →
       parse_request_text (CommonMcpClient py_repr) query'
         = Ok (<["intent" := VStr intent]>
                 (<["structured_query" := VStr query']> ∅))) ∧
    (contains "error code 42" query = true → intent = "technical_support").
Proof.
  assert (contains "error code 42" query = true →
          contains "error code" (lower query) = true) as Himp.
  { intros H. apply (contains_lower "error code 42" query) in H.
    by apply (contains_trans "error code" "error code 42"). }
  simpl.
  destruct (contains "error code" (lower query)) eqn:Hc.
  - exists "technical_support". split; [done|]. split; [by left|].
    split; [done|]. split; [|done].
    intros query' ->. by rewrite Hc.
  - exists "general_inquiry". split; [done|]. split; [by right|].
    split; [done|]. split; [intros query' ->; by rewrite Hc|].
    intros H. apply Himp in H. done.
Qed.

Lemma parse_request_text_intent_witness :
  parse_request_text (CommonMcpClient demo_repr) (query sample_input)
    = Ok (<["intent" := VStr "technical_support"]>
            (<["structured_query" := VStr (query sample_input)]> ∅)).
Proof.
  destruct (parse_request_text_intent demo_repr (query sample_input))
    as (intent & Hparse & _ & _ & _ & Himp).
  rewrite Hparse, (Himp eq_refl). reflexivity.
Defined.

Lemma upper_ascii_below (c : ascii) :
  (nat_of_ascii c <? 128)%nat = true → (nat_of_ascii (upper_ascii c) <? 128)%nat = true.
Proof. destruct c as [[] [] [] [] [] [] [] []]; vm_compute; done. Qed.

Lemma is_ascii_upper (s : string) : is_ascii s = true → is_ascii (upper s) = true.
Proof.
  induction s as [|c s IH]; [done|]. unfold upper in *. cbn [map_string is_ascii].
  rewrite !andb_true_iff. intros [Hc Hs]. split; [by apply upper_ascii_below | auto].
Qed.

Lemma is_ascii_lstrip (s : string) : is_ascii s = true → is_ascii (lstrip s) = true.
Proof.
  induction s as [|c s IH]; [done|]. cbn [lstrip].
  destruct (is_space c); [|done].
  cbn [is_ascii]. rewrite andb_true_iff. intros [_ Hs]. auto.
Qed.

Lemma is_ascii_rstrip (s : string) : is_ascii s = true → is_ascii (rstrip s) = true.
Proof.
  induction s as [|c s IH]; [done|]. cbn [rstrip is_ascii].
  rewrite andb_true_iff. intros [Hc Hs]. specialize (IH Hs).
  destruct (rstrip s) as [|c' r] eqn:Hr.
  - destruct (is_space c); [done|]. cbn [is_ascii]. by rewrite Hc.
  - cbn [is_ascii] in *. by rewrite Hc, IH.
Qed.

Lemma is_ascii_strip (s : string) : is_ascii s = true → is_ascii (strip s) = true.
Proof. intros H. unfold strip. by apply is_ascii_rstrip, is_ascii_lstrip. Qed.

(** X2.  On a ticket id of ASCII characters [normalize_fields] is
    idempotent: the id it returns is again ASCII, is left unchanged by a
    second call, by [strip] and by [upper], and does not start with
    whitespace. *)
Theorem normalize_fields_idempotent (py_repr : value → string) (ticket_id : string) :
  is_ascii ticket_id = true →
  ∃ id,
    normalize_fields (CommonMcpClient py_repr) ticket_id
      = Ok (<["normalized_ticket_id" := id]> ∅) ∧
    is_ascii id = true ∧
    normalize_fields (CommonMcpClient py_repr) id
      = Ok (<["normalized_ticket_id" := id]> ∅) ∧
    strip id = id ∧ upper id = id ∧ starts_clean id = true.
Proof.
  intros Hascii. exists (upper (strip ticket_id)).
  assert (strip (upper (strip ticket_id)) = upper (strip ticket_id)) as Hs
    by (by rewrite strip_upper, strip_idem).
  assert (upper (upper (strip ticket_id)) = upper (strip ticket_id)) as Hu
    by apply upper_idem.
  split; [reflexivity|].
  split; [by apply is_ascii_upper, is_ascii_strip|].
  split; [|split; [done|split; [done|]]].
  - simpl. by rewrite Hs, Hu.
  - rewrite <- Hs. unfold strip. apply rstrip_clean, lstrip_clean.
Qed.

Lemma normalize_fields_idempotent_witness :
  ∃ id,
    normalize_fields (CommonMcpClient demo_repr) " tkt-5 "
      = Ok (<["normalized_ticket_id" := id]> ∅) ∧
    is_ascii id = true ∧
    normalize_fields (CommonMcpClient demo_repr) id
      = Ok (<["normalized_ticket_id" := id]> ∅) ∧
    strip id = id ∧ upper id = id ∧ starts_clean id = true.
Proof.
  apply (normalize_fields_idempotent demo_repr " tkt-5 "). reflexivity.
Defined.

(** X3.  [add_flags_calculations] flags a ticket as urgent exactly when the
    lower-cased query contains "urgent" or the priority exceeds 3.  A ticket
    that is not urgent keeps its integer priority; an urgent one gets the float
    product of the converted priority and 1.5.  The only exception the call
    can raise is the [OverflowError] of that conversion, and only for an urgent
    ticket; a priority below [2 ** 1023] in magnitude never raises.  The result
    depends on the query only through its lower-casing. *)
Theorem add_flags_calculations_urgency (py_repr : value → string)
    (priority : Z) (query : string) :
  let urgent := contains "urgent" (lower query) || (3 <? priority)%Z in
  (urgent = false →
   add_flags_calculations (CommonMcpClient py_repr) priority query
     = Ok (<["is_urgent_flag" := VBool false]>
             (<["calculated_priority" := VInt priority]> ∅))) ∧
  (urgent = true →
   (∀ f, float_of_int priority = Ok f →
      add_flags_calculations (CommonMcpClient py_repr) priority query
        = Ok (<["is_urgent_flag" := VBool true]>
                (<["calculated_priority" :=
                     VFloat (SFmul prec emax f one_and_a_half)]> ∅))) ∧
   (∀ e, float_of_int priority = Raise e →
      add_flags_calculations (CommonMcpClient py_repr) priority query = Raise e)) ∧
  (∀ e,
     add_flags_calculations (CommonMcpClient py_repr) priority query = Raise e →
     urgent = true ∧ e = OverflowError "int too large to convert to float") ∧
  ((Z.abs priority < 2 ^ 1023)%Z →
   ∃ calculated,
     add_flags_calculations (CommonMcpClient py_repr) priority query
       = Ok (<["is_urgent_flag" := VBool urgent]>
               (<["calculated_priority" := calculated]> ∅))) ∧
  (∀ query', lower query' = lower query →
     add_flags_calculations (CommonMcpClient py_repr) priority query'
       = add_flags_calculations (CommonMcpClient py_repr) priority query).
Proof.
  intros urgent.
  split; [|split; [|split; [|split; [exact (add_flags_in_range _ _ _)|]]]];
    subst urgent; simpl; unfold int_times_float, float_of_int.
  - by intros ->.
  - intros ->. split.
    + intros f Hf. by destruct (binary_normalize prec emax priority 0 false);
        simplify_eq.
    + intros e He. by destruct (binary_normalize prec emax priority 0 false);
        simplify_eq.
  - intros e. destruct (contains "urgent" (lower query) || (3 <? priority)%Z);
      [|done].
    by destruct (binary_normalize prec emax priority 0 false);
      intros ?; simplify_eq.
  - by intros query' ->.
Qed.

Lemma add_flags_calculations_urgency_witness :
  ∃ calculated,
    add_flags_calculations (CommonMcpClient demo_repr) 4 "urgent: it broke"
      = Ok (<["is_urgent_flag" := VBool true]>
              (<["calculated_priority" := calculated]> ∅)).
Proof.
  apply (proj1 (proj2 (proj2 (proj2
           (add_flags_calculations_urgency demo_repr 4 "urgent: it broke"))))).
  reflexivity.
Defined.

(** X4.  [solution_evaluation] scores an article without a title 75, and an
    article with a string title 95 when the lower-cased title contains
    "error code" and 75 otherwise, so the score depends on the title only
    through its lower-casing.  A title that is [None], a [bool], an [int], a
    [float] or a [list] raises [AttributeError].  No other score than 75 and
    95 is ever returned. *)
Theorem solution_evaluation_scores (py_repr : value → string) (kb_article : dict) :
  (kb_article !! "title" = None →
   solution_evaluation (CommonMcpClient py_repr) kb_article
     = Ok (<["solution_score" := 75%Z]> ∅)) ∧
  (∀ title, kb_article !! "title" = Some (VStr title) →
     solution_evaluation (CommonMcpClient py_repr) kb_article
       = Ok (<["solution_score" :=
                 if contains "error code" (lower title) then 95%Z else 75%Z]> ∅) ∧
     ∀ title', lower title' = lower title →
       solution_evaluation (CommonMcpClient py_repr)
         (<["title" := VStr title']> kb_article)
         = solution_evaluation (CommonMcpClient py_repr) kb_article) ∧
  (∀ v, kb_article !! "title" = Some v →
     (v = VNone ∨ (∃ b, v = VBool b) ∨ (∃ z, v = VInt z) ∨ (∃ f, v = VFloat f) ∨
      (∃ l, v = VList l)) →
     solution_evaluation (CommonMcpClient py_repr) kb_article
       = Raise (AttributeError "lower")) ∧
  (∀ r score,
     solution_evaluation (CommonMcpClient py_repr) kb_article = Ok r →
     r !! "solution_score" = Some score →
     score = 75%Z ∨ score = 95%Z).
Proof.
  split; [|split; [|split]].
  - intros H. simpl. by rewrite H.
  - intros title H. simpl. rewrite H. simpl. split; [done|].
    intros title' Hl. by rewrite lookup_insert_eq; simpl; rewrite Hl.
  - intros v H Hv. simpl. rewrite H.
    destruct Hv as [-> | [[b ->] | [[z ->] | [[f ->] | [l ->]]]]]; reflexivity.
  - intros r score. simpl.
    destruct (value_lower _) as [t|e]; [|done].
    intros [= <-]. destruct (contains "error code" t);
      rewrite lookup_insert_eq; intros [= <-]; auto.
Qed.

Lemma solution_evaluation_scores_witness :
  solution_evaluation (CommonMcpClient demo_repr) kb_123
    = Ok (<["solution_score" := 95%Z]> ∅) ∧
  solution_evaluation (CommonMcpClient demo_repr) (<["title" := VInt 42]> ∅)
    = Raise (AttributeError "lower").
Proof.
  split.
  - exact (proj1 (proj1 (proj2 (solution_evaluation_scores demo_repr kb_123))
                    "Resolving Error Code 42 on Pro-Widget X" eq_refl)).
  - apply (proj1 (proj2 (proj2
             (solution_evaluation_scores demo_repr (<["title" := VInt 42]> ∅))))
             (VInt 42)); [reflexivity|].
    right. right. left. by exists 42%Z.
Defined.

Lemma take_string_length (n : nat) (s : string) :
  (String.length (take_string n s) ≤ n)%nat.
Proof.
  revert s. induction n as [|n IH]; intros [|c s]; simpl; try lia.
  specialize (IH s). lia.
Qed.

Lemma take_string_prefix (n : nat) (s : string) :
  String.prefix (take_string n s) s = true.
Proof.
  revert s. induction n as [|n IH]; intros [|c s]; simpl; try done.
  destruct (Ascii.ascii_dec c c); [apply IH | done].
Qed.

(** X5.  [response_generation] raises [KeyError] for an article without a
    title, and for one with a string title but without a summary.  For an
    article with a string title and summary it returns a response that
    contains the customer's name, the title and the summary; when the query
    is ASCII text the response also contains the first 30 characters of the
    query, the whole query when it is that short. *)
Theorem response_generation_contents (py_repr : value → string)
    (customer_name query : string) (kb_article : dict) :
  (kb_article !! "title" = None →
   response_generation (CommonMcpClient py_repr) customer_name query kb_article
     = Raise (KeyError "title")) ∧
  (∀ title, kb_article !! "title" = Some (VStr title) →
   kb_article !! "summary" = None →
   response_generation (CommonMcpClient py_repr) customer_name query kb_article
     = Raise (KeyError "summary")) ∧
  (∀ title summary,
     kb_article !! "title" = Some (VStr title) →
     kb_article !! "summary" = Some (VStr summary) →
     ∃ response,
       response_generation (CommonMcpClient py_repr) customer_name query kb_article
         = Ok (<["generated_response" := response]> ∅) ∧
       contains customer_name response = true ∧
       contains title response = true ∧
       contains summary response = true ∧
       (is_ascii query = true →
        contains (take_string 30 query) response = true ∧
        String.prefix (take_string 30 query) query = true ∧
        (String.length (take_string 30 query) ≤ 30)%nat ∧
        ((String.length query ≤ 30)%nat → contains query response = true))).
Proof.
  split; [|split].
  - intros H. unfold response_generation, CommonMcpClient, subscript. by rewrite H.
  - intros t Ht Hs. unfold response_generation, CommonMcpClient, subscript.
    by rewrite Ht, Hs.
  - intros title summary Ht Hs.
    unfold response_generation, CommonMcpClient, subscript. rewrite Ht, Hs.
    cbv zeta. cbn [format_value].
    eexists. split; [reflexivity|].
    split; [find_substring; done|]. split; [find_substring; done|].
    split; [find_substring; done|].
    intros _. split; [find_substring; done|].
    split; [apply take_string_prefix|].
    split; [apply take_string_length|].
    intros Hlen. rewrite <- (take_string_all 30 query Hlen) at 1.
    find_substring; done.
Qed.

Lemma response_generation_contents_witness :
  ∃ response,
    response_generation (CommonMcpClient demo_repr) "Alice Wonder" "It broke" kb_123
      = Ok (<["generated_response" := response]> ∅) ∧
    contains "Alice Wonder" response = true ∧
    contains "Resolving Error Code 42 on Pro-Widget X" response = true ∧
    contains "This error is typically caused by a firmware mismatch. To resolve, please follow the steps to update the firmware..." response = true ∧
    (is_ascii "It broke" = true →
     contains (take_string 30 "It broke") response = true ∧
     String.prefix (take_string 30 "It broke") "It broke" = true ∧
     (String.length (take_string 30 "It broke") ≤ 30)%nat ∧
     ((String.length "It broke" ≤ 30)%nat → contains "It broke" response = true)).
Proof.
  apply (proj2 (proj2 (response_generation_contents demo_repr
                         "Alice Wonder" "It broke" kb_123))).
  - reflexivity.
  - reflexivity.
Defined.

(** ** The simulated ATLAS client *)


(** X7.  [knowledge_base_search] finds the article KB-123 exactly when the
    list of entities has the element "error code 42", and returns the empty
    article otherwise.  Handed a string instead of a list it tests for the
    substring; handed [None], a [bool], an [int] or a [float] it raises
    [TypeError]. *)
Theorem knowledge_base_search_exact_match (entities : value) :
  match entities with
  | VList l =>
      (VStr "error code 42" ∈ l →
       knowledge_base_search AtlasMcpClient entities
         = Ok (<["retrieved_kb_article" := kb_123]> ∅)) ∧
      (VStr "error code 42" ∉ l →
       knowledge_base_search AtlasMcpClient entities
         = Ok (<["retrieved_kb_article" := ∅]> ∅))
  | VStr s =>
      knowledge_base_search AtlasMcpClient entities
        = Ok (<["retrieved_kb_article" :=
                  if contains "error code 42" s then kb_123 else ∅]> ∅)
  | VNone | VBool _ | VInt _ | VFloat _ =>
      ∃ msg, knowledge_base_search AtlasMcpClient entities = Raise (TypeError msg)
  end.
Proof.
  destruct entities as [| | | | s | l]; try (by eexists).
  - simpl. by destruct (contains "error code 42" s).
  - pose proof (existsb_value_eq_str "error code 42" l) as Hspec.
    simpl. destruct (existsb _ l).
    + split; [done | intros Hn; destruct Hn; by apply Hspec].
    + split; [intros Hin; apply Hspec in Hin; done | done].
Qed.

Lemma knowledge_base_search_exact_match_witness :
  knowledge_base_search AtlasMcpClient
    (VList [VStr "Pro-Widget X"; VStr "error code 42"])
    = Ok (<["retrieved_kb_article" := kb_123]> ∅).
Proof.
  apply (proj1 (knowledge_base_search_exact_match
                  (VList [VStr "Pro-Widget X"; VStr "error code 42"]))).
  repeat constructor.
Defined.

(** X8.  Whatever [knowledge_base_search] returns, it returns under the key
    RETRIEVE reads, and DECIDE's scorer accepts it: either the article is
    KB-123, scored 95, and [response_generation] returns for it; or it is the
    empty article, scored 75, for which [response_generation] would raise
    [KeyError].  So the only article CREATE can fail on is one that is scored
    below the threshold. *)
Theorem search_then_score (py_repr : value → string) (entities : value)
    (kb_result : gmap string dict) :
  knowledge_base_search AtlasMcpClient entities = Ok kb_result →
  ∃ article,
    kb_result !! "retrieved_kb_article" = Some article ∧
    ((article = kb_123 ∧
      solution_evaluation (CommonMcpClient py_repr) article
        = Ok (<["solution_score" := 95%Z]> ∅) ∧
      ∀ name query, ∃ response,
        response_generation (CommonMcpClient py_repr) name query article
          = Ok (<["generated_response" := response]> ∅)) ∨
     (article = ∅ ∧
      solution_evaluation (CommonMcpClient py_repr) article
        = Ok (<["solution_score" := 75%Z]> ∅) ∧
      ∀ name query,
        response_generation (CommonMcpClient py_repr) name query article
          = Raise (KeyError "title"))).
Proof.
  simpl. destruct (str_in_value "error code 42" entities) as [[]|e]; [| |done].
  - intros [= <-]. exists kb_123. split; [reflexivity|]. left.
    split; [done|]. split; [vm_compute; reflexivity|].
    intros name query. eexists. vm_compute. reflexivity.
  - intros [= <-]. exists ∅. split; [reflexivity|]. right.
    split; [done|]. split; [vm_compute; reflexivity|].
    intros name query. reflexivity.
Qed.

Lemma search_then_score_witness :
  ∃ article,
    (<["retrieved_kb_article" := ∅]> ∅ : gmap string dict)
      !! "retrieved_kb_article" = Some article ∧
    ((article = kb_123 ∧
      solution_evaluation (CommonMcpClient demo_repr) article
        = Ok (<["solution_score" := 95%Z]> ∅) ∧
      ∀ name query, ∃ response,
        response_generation (CommonMcpClient demo_repr) name query article
          = Ok (<["generated_response" := response]> ∅)) ∨
     (article = ∅ ∧
      solution_evaluation (CommonMcpClient demo_repr) article
        = Ok (<["solution_score" := 75%Z]> ∅) ∧
      ∀ name query,
        response_generation (CommonMcpClient demo_repr) name query article
          = Raise (KeyError "title"))).
Proof.
  apply (search_then_score demo_repr (VList [])). reflexivity.
Defined.

(** ** What a stage may change *)

Ltac node_cases H :=
  unfold workflow in H; simpl in H;
  repeat (case_match; simplify_eq); eqb_subst; try done.

Ltac open_stages :=
  unfold stage_intake, stage_understand, stage_prepare, stage_retrieve,
    stage_decide, stage_create, stage_update, stage_do, stage_close,
    stage_complete in *;
  unfold_monad; simpl in *.

(** X9.  A stage other than DECIDE that raises has changed nothing but the
    log, and the log only by its header: the state it leaves is the input
    state with one entry appended.  DECIDE assigns the decision before it
    writes its second log entry, so the same is stated for it by cause: when
    the article is missing, the scorer raises, the score's key is missing or
    the escalation call raises, DECIDE has appended its header and nothing
    else. *)
Theorem stage_failure_only_logs (common_client : CommonMcp)
    (atlas_client : AtlasMcp) :
  (∀ n stage st st' e,
     assoc n (nodes (workflow common_client atlas_client)) = Some stage →
     n ≠ "DECIDE" →
     stage st = (st', Raise e) →
     ∃ entry, st' = log_append entry st) ∧
  (∀ st,
     match retrieved_kb_article st with
     | None =>
         stage_decide common_client atlas_client st
           = (log_append "✅ STAGE: DECIDE" st, Raise (KeyError "retrieved_kb_article"))
     | Some article =>
         match solution_evaluation common_client article with
         | Raise e =>
             stage_decide common_client atlas_client st
               = (log_append "✅ STAGE: DECIDE" st, Raise e)
         | Ok score_result =>
             match score_result !! "solution_score" with
             | None =>
                 stage_decide common_client atlas_client st
                   = (log_append "✅ STAGE: DECIDE" st,
                      Raise (KeyError "solution_score"))
             | Some score =>
                 (score < 90)%Z →
                 ∀ e, escalation_decision atlas_client (ticket_id st) = Raise e →
                      stage_decide common_client atlas_client st
                        = (log_append "✅ STAGE: DECIDE" st, Raise e)
             end
         end
     end).
Proof.
  split.
  - intros n stage st st' e Hn Hd Hs. node_cases Hn; open_stages;
      repeat (case_match; simpl in *; simplify_eq); by eexists.
  - intros st. unfold stage_decide. unfold_monad. simpl.
    destruct (retrieved_kb_article st) as [article|]; [|done]. simpl.
    destruct (solution_evaluation common_client article) as [sr|e]; [|done].
    simpl. destruct (sr !! "solution_score") as [score|]; [|done]. simpl.
    intros Hlt e He. destruct (Z.leb_spec 90 score); [lia|].
    simpl. by rewrite He.
Qed.

Lemma stage_failure_only_logs_witness :
  ∃ entry,
    (stage_prepare (CommonMcpClient demo_repr) AtlasMcpClient
       (stage_understand (CommonMcpClient demo_repr) AtlasMcpClient
          (stage_intake sample_huge_priority).1).1).1
    = log_append entry
        (stage_understand (CommonMcpClient demo_repr) AtlasMcpClient
           (stage_intake sample_huge_priority).1).1.
Proof.
  apply (proj1 (stage_failure_only_logs (CommonMcpClient demo_repr) AtlasMcpClient)
           "PREPARE" (stage_prepare (CommonMcpClient demo_repr) AtlasMcpClient)
           _ _ (OverflowError "int too large to convert to float")).
  - reflexivity.
  - discriminate.
  - vm_compute. reflexivity.
Defined.

(** No stage assigns a payload field, and each workflow field is assigned by
    its own node only. *)
Lemma node_write_sets (common_client : CommonMcp) (atlas_client : AtlasMcp)
    (n : string) (stage : Stage) (st : AgentState) :
  assoc n (nodes (workflow common_client atlas_client)) = Some stage →
  (customer_name (stage st).1 = customer_name st ∧
   email (stage st).1 = email st ∧
   query (stage st).1 = query st ∧
   priority (stage st).1 = priority st ∧
   ticket_id (stage st).1 = ticket_id st) ∧
  (n ≠ "UNDERSTAND" → structured_data (stage st).1 = structured_data st) ∧
  (n ≠ "PREPARE" → enriched_data (stage st).1 = enriched_data st) ∧
  (n ≠ "RETRIEVE" → retrieved_kb_article (stage st).1 = retrieved_kb_article st) ∧
  (n ≠ "DECIDE" → decision (stage st).1 = decision st) ∧
  (n ≠ "CREATE" → n ≠ "UPDATE" →
   final_response (stage st).1 = final_response st ∧
   final_status (stage st).1 = final_status st).
Proof.
  intros Hn. node_cases Hn; open_stages;
    repeat (case_match; simpl in *; simplify_eq); naive_solver.
Qed.

(** X10.  UPDATE, CLOSE and DO never look at what the ticket system or the
    notification call returns: each of them returns whenever its call returns
    and raises what the call raises.  So UPDATE records the escalation, with
    its fixed response, whatever status the update reports. *)
Theorem ticket_call_results_ignored (atlas_client : AtlasMcp) (st : AgentState) :
  (stage_update atlas_client st).2 =
    match update_ticket atlas_client (ticket_id st) "Escalated" "Tier 2 Support" with
    | Ok _ => Ok tt
    | Raise e => Raise e
    end ∧
  (stage_close atlas_client st).2 =
    match close_ticket atlas_client (ticket_id st) with
    | Ok _ => Ok tt
    | Raise e => Raise e
    end ∧
  (∀ message, final_response st = Some message →
     (stage_do atlas_client st).2 =
       match execute_api_calls atlas_client (email st) message with
       | Ok _ => Ok tt
       | Raise e => Raise e
       end) ∧
  (∀ r, update_ticket atlas_client (ticket_id st) "Escalated" "Tier 2 Support" = Ok r →
     stage_update atlas_client st =
       (set_final_status ESCALATED
          (set_final_response "This ticket has been escalated for human review."
             (log_append "✅ STAGE: UPDATE" st)), Ok tt)).
Proof.
  split; [|split; [|split]].
  - unfold stage_update. unfold_monad. simpl. by destruct (update_ticket _ _ _ _).
  - unfold stage_close. unfold_monad. simpl. by destruct (close_ticket _ _).
  - intros message Hmsg. unfold stage_do. unfold_monad. simpl. rewrite Hmsg.
    simpl. by destruct (execute_api_calls _ _ _).
  - intros r Hr. unfold stage_update. unfold_monad. simpl. by rewrite Hr.
Qed.

Lemma ticket_call_results_ignored_witness :
  stage_update AtlasMcpClient sample_without_article =
    (set_final_status ESCALATED
       (set_final_response "This ticket has been escalated for human review."
          (log_append "✅ STAGE: UPDATE" sample_without_article)), Ok tt).
Proof.
  apply (proj2 (proj2 (proj2
           (ticket_call_results_ignored AtlasMcpClient sample_without_article)))
           (<["ticket_update_status" := "SUCCESS"]> ∅)).
  reflexivity.
Defined.

(** ** DECIDE and its router *)

(** X11.  When DECIDE returns, the router that follows it returns too, and
    the route is settled by the score alone when the score is at least 90
    (CREATE).  Below 90 the route is UPDATE unless the escalation result
    itself carries an [outcome] of "CREATE_RESPONSE": its keys are merged over
    the decision, so it can overwrite the recorded outcome. *)
Theorem decide_then_route (common_client : CommonMcp) (atlas_client : AtlasMcp)
    (st st' : AgentState) (u : unit) :
  stage_decide common_client atlas_client st = (st', Ok u) →
  ∃ article score_result score,
    retrieved_kb_article st = Some article ∧
    solution_evaluation common_client article = Ok score_result ∧
    score_result !! "solution_score" = Some score ∧
    ((90 ≤ score)%Z → route_after_decision st' = Ok "CREATE") ∧
    ((score < 90)%Z →
     ∃ escalation_result,
       escalation_decision atlas_client (ticket_id st) = Ok escalation_result ∧
       route_after_decision st' =
         Ok (if bool_decide (escalation_result !! "outcome" = Some "CREATE_RESPONSE")
             then "CREATE" else "UPDATE")).
Proof.
  unfold stage_decide. intros H. unfold_monad. simpl in H.
  destruct (retrieved_kb_article st) as [article|] eqn:Hart; [|done].
  simpl in H.
  destruct (solution_evaluation common_client article) as [score_result|] eqn:Hev;
    [|done].
  simpl in H.
  destruct (score_result !! "solution_score") as [score|] eqn:Hscore; [|done].
  simpl in H. exists article, score_result, score.
  split; [done|]. split; [done|]. split; [done|].
  destruct (Z.leb_spec 90 score) as [Hge|Hlt]; simpl in H.
  - simplify_eq. split; [done | intros; lia].
  - destruct (escalation_decision atlas_client (ticket_id st)) as [esc|] eqn:Hesc;
      [|done].
    simpl in H. simplify_eq. split; [intros; lia|]. intros _.
    exists esc. split; [done|].
    unfold route_after_decision, subscript. simpl.
    unfold merge_dict, str_values. rewrite lookup_union, lookup_fmap.
    destruct (esc !! "outcome") as [o|] eqn:Ho; simpl.
    + rewrite lookup_insert_ne, lookup_insert_eq by done. simpl.
      destruct (bool_decide (o = "CREATE_RESPONSE")) eqn:Hb.
      * apply bool_decide_eq_true in Hb as ->. by rewrite bool_decide_eq_true_2.
      * apply bool_decide_eq_false in Hb.
        rewrite bool_decide_eq_false_2; [done | congruence].
    + by rewrite lookup_insert_ne, lookup_insert_eq.
Qed.

Lemma decide_then_route_witness :
  ∃ article score_result score,
    retrieved_kb_article sample_without_article = Some article ∧
    solution_evaluation (CommonMcpClient demo_repr) article = Ok score_result ∧
    score_result !! "solution_score" = Some score ∧
    ((90 ≤ score)%Z →
     route_after_decision
       (stage_decide (CommonMcpClient demo_repr) AtlasMcpClient
          sample_without_article).1 = Ok "CREATE") ∧
    ((score < 90)%Z →
     ∃ escalation_result,
       escalation_decision AtlasMcpClient (ticket_id sample_without_article)
         = Ok escalation_result ∧
       route_after_decision
         (stage_decide (CommonMcpClient demo_repr) AtlasMcpClient
            sample_without_article).1 =
         Ok (if bool_decide (escalation_result !! "outcome" = Some "CREATE_RESPONSE")
             then "CREATE" else "UPDATE")).
Proof.
  apply (decide_then_route (CommonMcpClient demo_repr) AtlasMcpClient
           sample_without_article _ tt).
  vm_compute. reflexivity.
Defined.

(** ** Invariants of runs *)

Lemma run_preserves_on {A} (g : StateGraph) (P : string → Prop)
    (f : AgentState → A) :
  (∀ n st target, P n → next_target g n st = inr target → target ≠ END → P target) →
  (∀ n stage st, P n → assoc n (nodes g) = Some stage → f (stage st).1 = f st) →
  ∀ fuel n st, P n → f (result_state (run_from g fuel n st).2) = f st.
Proof.
  intros Hnext Hstage. induction fuel as [|fuel IH]; intros n st Hn;
    [by rewrite run_from_0|].
  rewrite run_from_S.
  destruct (assoc n (nodes g)) as [stage|] eqn:Hnode; [|done].
  specialize (Hstage n stage st Hn Hnode).
  destruct (stage st) as [st1 [u|e]]; simpl in *; [|done].
  destruct (next_target g n st1) as [err|target] eqn:Ht; [done|].
  destruct (String.eqb_spec target END) as [->|Hne]; [done|].
  specialize (IH target st1 (Hnext n st1 target Hn Ht Hne)).
  destruct (run_from g fuel target st1) as [trace' r']. simpl in *. congruence.
Qed.

(** X12.  A run never changes the payload: whatever the clients do, wherever
    the run starts and however it ends, the state it leaves has the customer
    name, email, query, priority and ticket id it was started with. *)
Theorem run_keeps_payload (common_client : CommonMcp) (atlas_client : AtlasMcp)
    (fuel : nat) (n : string) (st : AgentState) :
  input_fields
    (result_state (run_from (workflow common_client atlas_client) fuel n st).2)
    = input_fields st.
Proof.
  apply (run_preserves_on _ (λ _, True)); [done| |done].
  intros n' stage st' _ Hn.
  destruct (node_write_sets common_client atlas_client n' stage st' Hn)
    as ((H1 & H2 & H3 & H4 & H5) & _).
  unfold input_fields. congruence.
Qed.

(** Downstream of a node of rank [k]: the nodes of smaller rank. *)
Lemma run_preserves_below {A} (common_client : CommonMcp)
    (atlas_client : AtlasMcp) (k : nat) (f : AgentState → A) :
  (∀ n stage st, node_rank n < k →
     assoc n (nodes (workflow common_client atlas_client)) = Some stage →
     f (stage st).1 = f st) →
  ∀ fuel n st, node_rank n < k →
    f (result_state (run_from (workflow common_client atlas_client) fuel n st).2)
      = f st.
Proof.
  intros Hstage. apply (run_preserves_on _ (λ n, node_rank n < k)); [|done].
  intros n st target Hn Ht Hne.
  pose proof (workflow_rank common_client atlas_client n st target Ht Hne). lia.
Qed.

(** X13.  Each workflow field is final once its stage is behind: a run that
    is past UNDERSTAND leaves [structured_data] as it found it, past PREPARE
    [enriched_data], past RETRIEVE the article, past DECIDE the decision, and
    from DO on the response and the status, whether the run completes or
    fails. *)
Theorem fields_written_once (common_client : CommonMcp) (atlas_client : AtlasMcp)
    (fuel : nat) (n : string) (st : AgentState) :
  let fin :=
    result_state (run_from (workflow common_client atlas_client) fuel n st).2 in
  (n ∈ ["PREPARE"; "RETRIEVE"; "DECIDE"; "CREATE"; "UPDATE"; "DO"; "CLOSE"; "COMPLETE"] →
   structured_data fin = structured_data st) ∧
  (n ∈ ["RETRIEVE"; "DECIDE"; "CREATE"; "UPDATE"; "DO"; "CLOSE"; "COMPLETE"] →
   enriched_data fin = enriched_data st) ∧
  (n ∈ ["DECIDE"; "CREATE"; "UPDATE"; "DO"; "CLOSE"; "COMPLETE"] →
   retrieved_kb_article fin = retrieved_kb_article st) ∧
  (n ∈ ["CREATE"; "UPDATE"; "DO"; "CLOSE"; "COMPLETE"] →
   decision fin = decision st) ∧
  (n ∈ ["DO"; "CLOSE"; "COMPLETE"] →
   final_response fin = final_response st ∧ final_status fin = final_status st).
Proof.
  intros fin. subst fin.
  assert (∀ n' stage st' (k : nat),
            node_rank n' < k →
            assoc n' (nodes (workflow common_client atlas_client)) = Some stage →
            ((k ≤ 8)%nat → structured_data (stage st').1 = structured_data st') ∧
            ((k ≤ 7)%nat → enriched_data (stage st').1 = enriched_data st') ∧
            ((k ≤ 6)%nat → retrieved_kb_article (stage st').1 = retrieved_kb_article st') ∧
            ((k ≤ 5)%nat → decision (stage st').1 = decision st') ∧
            ((k ≤ 4)%nat → final_response (stage st').1 = final_response st' ∧
                     final_status (stage st').1 = final_status st')) as Hkeep.
  { intros n' stage st' k Hk Hn.
    destruct (node_write_sets common_client atlas_client n' stage st' Hn)
      as (_ & H1 & H2 & H3 & H4 & H5).
    (split; [|split; [|split; [|split]]]); intros Hle;
      first [apply H1 | apply H2 | apply H3 | apply H4 | apply H5];
      intros ->; vm_compute in Hk; lia. }
  (split; [|split; [|split; [|split]]]); intros Hin; [| | | |split].
  - apply (run_preserves_below _ _ 8);
      [intros n' stage st' Hk Hn; by apply (Hkeep n' stage st' 8)|].
    revert Hin. rewrite !elem_of_cons, elem_of_nil.
    intros H; repeat destruct H as [->|H]; try done; vm_compute; lia.
  - apply (run_preserves_below _ _ 7);
      [intros n' stage st' Hk Hn; by apply (Hkeep n' stage st' 7)|].
    revert Hin. rewrite !elem_of_cons, elem_of_nil.
    intros H; repeat destruct H as [->|H]; try done; vm_compute; lia.
  - apply (run_preserves_below _ _ 6);
      [intros n' stage st' Hk Hn; by apply (Hkeep n' stage st' 6)|].
    revert Hin. rewrite !elem_of_cons, elem_of_nil.
    intros H; repeat destruct H as [->|H]; try done; vm_compute; lia.
  - apply (run_preserves_below _ _ 5);
      [intros n' stage st' Hk Hn; by apply (Hkeep n' stage st' 5)|].
    revert Hin. rewrite !elem_of_cons, elem_of_nil.
    intros H; repeat destruct H as [->|H]; try done; vm_compute; lia.
  - apply (run_preserves_below _ _ 4 final_response);
      [intros n' stage st' Hk Hn; by apply (Hkeep n' stage st' 4)|].
    revert Hin. rewrite !elem_of_cons, elem_of_nil.
    intros H; repeat destruct H as [->|H]; try done; vm_compute; lia.
  - apply (run_preserves_below _ _ 4 final_status);
      [intros n' stage st' Hk Hn; by apply (Hkeep n' stage st' 4)|].
    revert Hin. rewrite !elem_of_cons, elem_of_nil.
    intros H; repeat destruct H as [->|H]; try done; vm_compute; lia.
Qed.

Lemma fields_written_once_witness :
  decision
    (result_state
       (run_from (workflow (CommonMcpClient demo_repr) AtlasMcpClient)
          recursion_limit "CREATE" sample_without_article).2)
    = decision sample_without_article.
Proof.
  apply (proj1 (proj2 (proj2 (proj2
           (fields_written_once (CommonMcpClient demo_repr) AtlasMcpClient
              recursion_limit "CREATE" sample_without_article))))).
  repeat constructor.
Defined.

(** ** Every run of the workflow *)

Lemma declared_rank (common_client : CommonMcp) (atlas_client : AtlasMcp)
    (n : string) (stage : Stage) :
  assoc n (nodes (workflow common_client atlas_client)) = Some stage →
  (1 ≤ node_rank n ≤ 9)%nat ∧ n ∈ declared_nodes.
Proof.
  intros Hn. node_cases Hn; (split; [vm_compute; lia|]);
    unfold declared_nodes; rewrite !elem_of_cons; tauto.
Qed.

Lemma run_trace_ranks (common_client : CommonMcp) (atlas_client : AtlasMcp)
    (fuel : nat) : ∀ n st,
  Forall (λ m, (node_rank m ≤ node_rank n)%nat ∧ m ∈ declared_nodes)
    (run_from (workflow common_client atlas_client) fuel n st).1 ∧
  NoDup (run_from (workflow common_client atlas_client) fuel n st).1 ∧
  (length (run_from (workflow common_client atlas_client) fuel n st).1
     ≤ node_rank n)%nat.
Proof.
  induction fuel as [|fuel IH]; intros n st.
  - rewrite run_from_0. repeat split; try constructor. simpl. lia.
  - rewrite run_from_S.
    destruct (assoc n _) as [stage|] eqn:Hn;
      [|repeat split; try constructor; simpl; lia].
    pose proof (declared_rank _ _ n stage Hn) as [Hr Hd].
    assert (Forall (λ m, (node_rank m ≤ node_rank n)%nat ∧ m ∈ declared_nodes) [n])
      as Hone by (constructor; [split; [lia|done] | constructor]).
    assert (NoDup [n]) as Hnd1 by (repeat constructor; set_solver).
    destruct (stage st) as [st1 [u|e]]; [|split; [done|split; [done|simpl; lia]]].
    destruct (next_target _ n st1) as [err|target] eqn:Ht;
      [split; [done|split; [done|simpl; lia]]|].
    destruct (String.eqb_spec target END) as [->|Hne];
      [split; [done|split; [done|simpl; lia]]|].
    pose proof (workflow_rank _ _ n st1 target Ht Hne) as Hrank.
    destruct (IH target st1) as (Hall & Hnd & Hlen).
    destruct (run_from _ fuel target st1) as [trace r]. simpl in *.
    split; [|split].
    + constructor; [done|]. eapply Forall_impl; [exact Hall|]. simpl.
      intros m [Hm Hdm]. split; [lia|done].
    + constructor; [|done]. intros Hin.
      rewrite Forall_forall in Hall. destruct (Hall n Hin). lia.
    + lia.
Qed.

(** X14.  The workflow has no cycle: on every run, from any node and with
    any clients, no stage is called twice, at most nine stages are called, and
    only the ten registered ones; the stubs ASK and WAIT are never called. *)
Theorem no_stage_runs_twice (common_client : CommonMcp) (atlas_client : AtlasMcp)
    (fuel : nat) (n : string) (st : AgentState) :
  NoDup (run_from (workflow common_client atlas_client) fuel n st).1 ∧
  (length (run_from (workflow common_client atlas_client) fuel n st).1 ≤ 9)%nat ∧
  (∀ m, m ∈ (run_from (workflow common_client atlas_client) fuel n st).1 →
        m ∈ declared_nodes) ∧
  ("ASK" ∉ (run_from (workflow common_client atlas_client) fuel n st).1) ∧
  ("WAIT" ∉ (run_from (workflow common_client atlas_client) fuel n st).1).
Proof.
  destruct (run_trace_ranks common_client atlas_client fuel n st)
    as (Hall & Hnd & Hlen).
  rewrite Forall_forall in Hall.
  split; [done|]. split.
  { assert (node_rank n ≤ 9)%nat; [|lia].
    unfold node_rank. repeat case_match; lia. }
  split; [intros m Hm; by destruct (Hall m Hm)|].
  split; intros Hin; destruct (Hall _ Hin) as [_ Hd]; revert Hd;
    unfold declared_nodes; rewrite !elem_of_cons, elem_of_nil;
    intros Hd; repeat destruct Hd as [Hd|Hd]; done.
Qed.

Lemma route_after_decision_returns (st : AgentState) (d : dict) :
  decision st = Some d → d !! "outcome" ≠ None →
  ∃ label, route_after_decision st = Ok label.
Proof.
  intros Hd Ho. unfold route_after_decision, subscript. rewrite Hd.
  destruct (d !! "outcome"); [|done]. case_match; by eexists.
Qed.

Section Outcomes.

Variable common_client : CommonMcp.
Variable atlas_client : AtlasMcp.

#[local] Abbreviation g := (workflow common_client atlas_client).

Lemma outcomes_DO fuel st trace r message status :
  final_response st = Some message →
  final_status st = Some status →
  run_from g (S (S (S fuel))) "DO" st = (trace, r) →
  (∃ fin, r = Completed fin ∧ final_status fin = Some status ∧
     (status = RESOLVED ∧ trace = ["DO"; "CLOSE"; "COMPLETE"] ∨
      status = ESCALATED ∧ trace = ["DO"])) ∨
  ((trace = ["DO"] ∨ status = RESOLVED ∧ trace = ["DO"; "CLOSE"]) ∧
   failed_in g trace r).
Proof.
  intros Hmsg Hstatus H. rewrite step_DO in H. cbv zeta in H.
  pose proof (do_state atlas_client st) as Hdo.
  destruct (stage_do atlas_client st) as [st1 [u|e]] eqn:Hs; simpl in *; subst st1.
  - rewrite Hstatus in H. destruct status.
    + rewrite step_CLOSE in H.
      pose proof (close_state atlas_client (log_append "✅ STAGE: DO" st)) as Hcl.
      destruct (stage_close atlas_client _) as [st2 [u2|e]] eqn:Hs2;
        simpl in *; subst st2; simplify_eq.
      * left. eexists. split; [done|]. split; [done|]. by left.
      * right. split; [by right|].
        eexists _, _, _, (stage_close atlas_client), _.
        split; [reflexivity|]. split; [reflexivity|]. split; [reflexivity|].
        eassumption.
    + simplify_eq. left. eexists. split; [done|]. split; [done|]. by right.
  - simplify_eq. right. split; [by left|].
    eexists _, _, _, (stage_do atlas_client), _.
    split; [reflexivity|]. split; [reflexivity|]. split; [reflexivity|].
    eassumption.
Qed.

Lemma failed_in_cons n trace r :
  trace ≠ [] → failed_in g trace r → failed_in g (n :: trace) r.
Proof.
  intros Hne (e & p & m & sg & sn & -> & Hl & Hn & Hsn).
  exists e, p, m, sg, sn. repeat split; try done.
  destruct trace; [done|]. exact Hl.
Qed.

Lemma outcomes_after_DECIDE fuel st5 trace r d label :
  decision st5 = Some d →
  route_after_decision st5 = Ok label →
  run_from g (S (S (S (S fuel)))) label st5 = (trace, r) →
  (∃ fin, r = Completed fin ∧
     (trace = ["CREATE"; "DO"; "CLOSE"; "COMPLETE"] ∧
        final_status fin = Some RESOLVED ∨
      trace = ["UPDATE"; "DO"] ∧ final_status fin = Some ESCALATED)) ∨
  (trace ≠ [] ∧
   (trace `prefix_of` ["CREATE"; "DO"; "CLOSE"; "COMPLETE"] ∨
    trace `prefix_of` ["UPDATE"; "DO"]) ∧
   failed_in g trace r).
Proof.
  intros Hd Hroute H.
  destruct (route_after_decision_label _ _ Hroute) as [-> | ->].
  - rewrite (step_static g "CREATE" (stage_create common_client) "DO") in H by done.
    destruct (stage_create common_client st5) as [st6 [u|e]] eqn:Hs.
    + pose proof Hs as Hs'. apply create_ok in Hs' as (resp & ->).
      destruct (run_from g _ "DO" _) as [tr' r'] eqn:Hdo.
      apply (outcomes_DO _ _ _ _ resp RESOLVED) in Hdo; [|done..].
      simplify_eq.
      destruct Hdo as [(fin & -> & Hf & [[_ ->] | [? _]]) | ([-> | [_ ->]] & Hf)];
        try done.
      * left. eexists. split; [done|]. by left.
      * right. split; [done|]. split; [left; by eexists|].
        by apply failed_in_cons.
      * right. split; [done|]. split; [left; by eexists|].
        by apply failed_in_cons.
    + simplify_eq. right. split; [done|]. split; [left; by eexists|].
      eexists _, _, _, (stage_create common_client), _.
      split; [reflexivity|]. split; [reflexivity|]. split; [reflexivity|].
      eassumption.
  - rewrite (step_static g "UPDATE" (stage_update atlas_client) "DO") in H by done.
    destruct (stage_update atlas_client st5) as [st6 [u|e]] eqn:Hs.
    + pose proof Hs as Hs'. apply update_ok in Hs' as ->.
      destruct (run_from g _ "DO" _) as [tr' r'] eqn:Hdo.
      apply (outcomes_DO _ _ _ _
               "This ticket has been escalated for human review." ESCALATED)
        in Hdo; [|done..].
      simplify_eq.
      destruct Hdo as [(fin & -> & Hf & [[? _] | [_ ->]]) | ([-> | [? _]] & Hf)];
        try done.
      * left. eexists. split; [done|]. by right.
      * right. split; [done|]. split; [right; by eexists|].
        by apply failed_in_cons.
    + simplify_eq. right. split; [done|]. split; [right; by eexists|].
      eexists _, _, _, (stage_update atlas_client), _.
      split; [reflexivity|]. split; [reflexivity|]. split; [reflexivity|].
      eassumption.
Qed.

Ltac fail_here stage_fn :=
  simplify_eq; right; split; [left; by eexists|];
  eexists _, _, _, stage_fn, _;
  split; [reflexivity|]; split; [reflexivity|]; split; [reflexivity|];
  eassumption.

(** X15.  Every run of the app ends in one of two ways.  Either it completes,
    along the resolved path with status RESOLVED or along the escalated path
    with status ESCALATED; or one of its stages raised: then the stages called
    are an initial part of one of the two paths, the failing stage is the last
    of them, and the run's error is the exception that stage raised.  No run
    fails in a router, on a missing node or edge, or at the step limit. *)
Theorem run_outcomes (st : AgentState) (trace : list string) (r : RunResult) :
  invoke g st = (trace, r) →
  (∃ fin, r = Completed fin ∧
     (trace = resolved_path ∧ final_status fin = Some RESOLVED ∨
      trace = escalated_path ∧ final_status fin = Some ESCALATED)) ∨
  ((trace `prefix_of` resolved_path ∨ trace `prefix_of` escalated_path) ∧
   failed_in g trace r).
Proof.
  unfold invoke.
  change (entry_point g) with (Some "INTAKE"). cbv beta iota.
  unfold recursion_limit. intros H.
  rewrite (step_static g "INTAKE" stage_intake "UNDERSTAND") in H by done.
  rewrite intake_spec in H.
  rewrite (step_static g "UNDERSTAND"
             (stage_understand common_client atlas_client) "PREPARE") in H by done.
  destruct (stage_understand _ _ _) as [st2 [u2|e]] eqn:H2;
    [|fail_here (stage_understand common_client atlas_client)].
  rewrite (step_static g "PREPARE"
             (stage_prepare common_client atlas_client) "RETRIEVE") in H by done.
  destruct (stage_prepare _ _ _) as [st3 [u3|e]] eqn:H3;
    [|fail_here (stage_prepare common_client atlas_client)].
  rewrite (step_static g "RETRIEVE" (stage_retrieve atlas_client) "DECIDE") in H
    by done.
  destruct (stage_retrieve _ _) as [st4 [u4|e]] eqn:H4;
    [|fail_here (stage_retrieve atlas_client)].
  rewrite step_DECIDE in H.
  destruct (stage_decide _ _ _) as [st5 [u5|e]] eqn:H5;
    [|fail_here (stage_decide common_client atlas_client)].
  pose proof H5 as H5'. apply decide_ok in H5' as (d & score & text & Ho & ->).
  assert (∃ label,
            route_after_decision
              (log_append (decision_log score text)
                 (set_decision d (log_append "✅ STAGE: DECIDE" st4))) = Ok label)
    as [label Hroute] by (by apply (route_after_decision_returns _ d)).
  rewrite Hroute in H.
  destruct (run_from g _ label _) as [tr' r'] eqn:Hrest.
  apply (outcomes_after_DECIDE _ _ _ _ d) in Hrest; [|done..].
  simplify_eq.
  destruct Hrest as [(fin & -> & [[-> Hf] | [-> Hf]])
                    | (Hne & [[k Hk] | [k Hk]] & Hfail)].
  - left. eexists. split; [done|]. by left.
  - left. eexists. split; [done|]. by right.
  - right. split.
    + left. exists k. unfold resolved_path. simpl. by rewrite <- Hk.
    + by repeat apply failed_in_cons.
  - right. split.
    + right. exists k. unfold escalated_path. simpl. by rewrite <- Hk.
    + by repeat apply failed_in_cons.
Qed.

End Outcomes.

Lemma run_outcomes_witness :
  (∃ fin, Completed demo_final = Completed fin ∧
     (resolved_path = resolved_path ∧ final_status fin = Some RESOLVED ∨
      resolved_path = escalated_path ∧ final_status fin = Some ESCALATED)) ∨
  ((resolved_path `prefix_of` resolved_path ∨
    resolved_path `prefix_of` escalated_path) ∧
   failed_in (workflow (CommonMcpClient demo_repr) AtlasMcpClient)
     resolved_path (Completed demo_final)).
Proof.
  exact (run_outcomes (CommonMcpClient demo_repr) AtlasMcpClient
           sample_input resolved_path (Completed demo_final) demo_run_result).
Defined.

(** ** Reading the outcome off the log *)

Lemma decision_log_not_header (score : Z) (text header : string) :
  String.prefix "✅" header = true → decision_log score text ≠ header.
Proof.
  intros Hp Heq. rewrite <- Heq in Hp. unfold decision_log in Hp.
  rewrite append_cons in Hp. discriminate.
Qed.

(** X16.  The log of a completed run tells how it ended: a resolved run's
    last entry is the COMPLETE header, an escalated run's last entry is the
    DO header, and an escalated run adds neither a CLOSE nor a CREATE entry
    to the log (the decision line can be mistaken for neither). *)
Theorem log_tells_outcome (common_client : CommonMcp) (atlas_client : AtlasMcp)
    (st fin : AgentState) (trace : list string) :
  invoke (workflow common_client atlas_client) st = (trace, Completed fin) →
  (final_status fin = Some RESOLVED ∧
   last (log fin) = Some "✅ STAGE: COMPLETE - Workflow finished.") ∨
  (final_status fin = Some ESCALATED ∧
   last (log fin) = Some "✅ STAGE: DO" ∧
   ("✅ STAGE: CLOSE" ∉ log st → "✅ STAGE: CLOSE" ∉ log fin) ∧
   ("✅ STAGE: CREATE" ∉ log st → "✅ STAGE: CREATE" ∉ log fin)).
Proof.
  intros Hrun.
  apply completed_run in Hrun as (score & text & [(_ & Hf & Hl) | (_ & Hf & Hl)]).
  - left. split; [done|]. rewrite Hl. unfold resolved_log.
    by rewrite last_app.
  - right. split; [done|]. rewrite Hl. unfold escalated_log.
    split; [by rewrite last_app|].
    pose proof (decision_log_not_header score text "✅ STAGE: CLOSE" eq_refl).
    pose proof (decision_log_not_header score text "✅ STAGE: CREATE" eq_refl).
    split; intros Hn; rewrite elem_of_app, !elem_of_cons, elem_of_nil;
      naive_solver.
Qed.

Lemma log_tells_outcome_witness :
  (final_status demo_final = Some RESOLVED ∧
   last (log demo_final) = Some "✅ STAGE: COMPLETE - Workflow finished.") ∨
  (final_status demo_final = Some ESCALATED ∧
   last (log demo_final) = Some "✅ STAGE: DO" ∧
   ("✅ STAGE: CLOSE" ∉ log sample_input → "✅ STAGE: CLOSE" ∉ log demo_final) ∧
   ("✅ STAGE: CREATE" ∉ log sample_input → "✅ STAGE: CREATE" ∉ log demo_final)).
Proof.
  exact (log_tells_outcome (CommonMcpClient demo_repr) AtlasMcpClient
           sample_input demo_final resolved_path demo_run_result).
Defined.

(** ** Runs from states that agree *)

Ltac use_levels :=
  repeat match goal with
         | H : (?a ≤ ?b)%nat → _ |- _ =>
             first [ specialize (H ltac:(lia))
                   | (assert (¬ (a ≤ b)%nat) by lia); clear H ]
         end.

Lemma agree_at_same (k : nat) (a b : AgentState) :
  (k ≤ 3)%nat → agree_at k a b → same_but_log a b.
Proof.
  unfold agree_at, same_but_log.
  intros Hk (H0 & H1 & H2 & H3 & H4 & H5).
  destruct H5 as [H5 H6]; [lia|]. repeat split; auto with lia.
Qed.

Lemma same_agree_at (k : nat) (a b : AgentState) :
  same_but_log a b → agree_at k a b.
Proof.
  unfold agree_at, same_but_log. intros (H0 & H1 & H2 & H3 & H4 & H5 & H6).
  repeat split; intros; done.
Qed.

Section Agreement.

Variable common_client : CommonMcp.
Variable atlas_client : AtlasMcp.

#[local] Abbreviation g := (workflow common_client atlas_client).

Lemma node_agree n stage k s1 s2 :
  assoc n (nodes g) = Some stage →
  agree_at (node_rank n) s1 s2 → agree_at k s1 s2 →
  (stage s1).2 = (stage s2).2 ∧
  (∃ entries, log (stage s1).1 = log s1 ++ entries ∧
              log (stage s2).1 = log s2 ++ entries) ∧
  agree_at k (stage s1).1 (stage s2).1 ∧
  (∀ u, (stage s1).2 = Ok u →
        agree_at (node_rank n - 1) (stage s1).1 (stage s2).1).
Proof.
  intros Hn Hr Hk. node_cases Hn;
    vm_compute node_rank in *;
    destruct s1, s2; unfold agree_at, input_fields in *; simpl in *;
    destruct Hr as (Hin & Hsd & Hed & Hart & Hdec & Hfin);
    use_levels; destruct_and?; simplify_eq; open_stages.
  all: repeat (case_match; simpl in *; simplify_eq).
  all: try (split; [done|]).
  all: unfold log_append, set_decision in *; simpl in *.
  all: split; [eexists; split; rewrite <- ?app_assoc; reflexivity|].
  all: repeat split; intros; simplify_eq; try done; try lia;
    repeat match goal with
           | H : (?a ≤ ?b)%nat → _, H' : (?a ≤ ?b)%nat |- _ => specialize (H H')
           end; intuition (try congruence).
Qed.

Lemma next_agree n s1 s2 :
  agree_at (node_rank n - 1) s1 s2 →
  next_target g n s1 = next_target g n s2.
Proof.
  unfold next_target. simpl. intros (_ & _ & _ & _ & Hdec & Hfin).
  repeat (case_match; simplify_eq); eqb_subst; try done.
  all: vm_compute node_rank in *; use_levels.
  all: unfold route_after_decision, route_after_do in *; destruct_and?;
    repeat match goal with
           | H : decision _ = decision _ |- _ => rewrite H in *; clear H
           | H : final_status _ = final_status _ |- _ => rewrite H in *; clear H
           end; congruence.
Qed.

Lemma workflow_rank_step n st target :
  next_target g n st = inr target → target ≠ END →
  node_rank n = S (node_rank target).
Proof.
  unfold next_target. simpl. intros H Hne.
  repeat (case_match; simplify_eq); eqb_subst; try done.
  all: match goal with
       | H : route_after_decision _ = Ok _ |- _ =>
           apply route_after_decision_label in H as [-> | ->]
       | H : route_after_do _ = Ok _ |- _ =>
           unfold route_after_do in H; repeat case_match; simplify_eq
       end; simpl in *; simplify_eq; done.
Qed.

Lemma workflow_end_rank n st :
  next_target g n st = inr END → (node_rank n ≤ 3)%nat.
Proof.
  unfold next_target. simpl. intros H.
  repeat (case_match; simplify_eq); eqb_subst; try done; try (vm_compute; lia).
  all: match goal with
       | H : route_after_decision _ = Ok _ |- _ =>
           apply route_after_decision_label in H as [-> | ->]
       end; simpl in *; simplify_eq.
Qed.

Lemma run_agree fuel : ∀ n k s1 s2,
  agree_at (node_rank n) s1 s2 → agree_at k s1 s2 →
  (run_from g fuel n s1).1 = (run_from g fuel n s2).1 ∧
  same_outcome (run_from g fuel n s1).2 (run_from g fuel n s2).2 ∧
  (∃ entries,
     log (result_state (run_from g fuel n s1).2) = log s1 ++ entries ∧
     log (result_state (run_from g fuel n s2).2) = log s2 ++ entries) ∧
  agree_at k (result_state (run_from g fuel n s1).2)
             (result_state (run_from g fuel n s2).2) ∧
  (∀ fin, (run_from g fuel n s1).2 = Completed fin →
     same_but_log (result_state (run_from g fuel n s1).2)
                  (result_state (run_from g fuel n s2).2)).
Proof.
  induction fuel as [|fuel IH]; intros n k s1 s2 Hr Hk.
  - rewrite !run_from_0. simpl.
    split; [done|]. split; [done|].
    split; [exists []; by rewrite !app_nil_r|]. by split.
  - rewrite !run_from_S.
    destruct (assoc n (nodes g)) as [stage|] eqn:Hn.
    2:{ simpl. split; [done|]. split; [done|].
        split; [exists []; by rewrite !app_nil_r|]. by split. }
    destruct (node_agree n stage k s1 s2 Hn Hr Hk) as (Hres & Hlog & Hk' & Hnext).
    destruct (node_agree n stage (node_rank n) s1 s2 Hn Hr Hr) as (_ & _ & Hr' & _).
    destruct (stage s1) as [t1 r1], (stage s2) as [t2 r2]. simpl in *. subst r2.
    destruct r1 as [u|e]; [|by simpl].
    specialize (Hnext u eq_refl).
    rewrite <- (next_agree n t1 t2 Hnext).
    destruct (next_target g n t1) as [err|target] eqn:Ht; [by simpl|].
    destruct (String.eqb_spec target END) as [->|Hne].
    + simpl. split; [done|]. split; [done|]. split; [done|]. split; [done|].
      intros fin _. eapply agree_at_same; [|exact Hr']. by eapply workflow_end_rank.
    + pose proof (workflow_rank_step n t1 target Ht Hne) as Hrank.
      assert (agree_at (node_rank target) t1 t2) as Hrt.
      { replace (node_rank target) with (node_rank n - 1)%nat by lia. done. }
      destruct (IH target k t1 t2 Hrt Hk') as (Htr & Hout & Hl & Hka & Hc).
      destruct (run_from g fuel target t1) as [tr1 q1],
               (run_from g fuel target t2) as [tr2 q2]. simpl in *.
      split; [by f_equal|]. split; [done|]. split; [|by split].
      destruct Hlog as (e1 & Hl1 & Hl2), Hl as (e2 & Hl3 & Hl4).
      exists (e1 ++ e2). by rewrite Hl3, Hl4, Hl1, Hl2, !app_assoc.
Qed.

End Agreement.

(** X17.  No stage and no router reads the log.  Two runs from the same
    node, on states that differ at most in their log, call the same stages and
    end the same way (both complete, or both fail with the same error); the
    states they leave again differ at most in their log, and the two logs have
    grown by the same entries. *)
Theorem log_is_never_read (common_client : CommonMcp) (atlas_client : AtlasMcp)
    (fuel : nat) (n : string) (s1 s2 : AgentState) :
  same_but_log s1 s2 →
  ∃ trace r1 r2 entries,
    run_from (workflow common_client atlas_client) fuel n s1 = (trace, r1) ∧
    run_from (workflow common_client atlas_client) fuel n s2 = (trace, r2) ∧
    same_outcome r1 r2 ∧
    same_but_log (result_state r1) (result_state r2) ∧
    log (result_state r1) = log s1 ++ entries ∧
    log (result_state r2) = log s2 ++ entries.
Proof.
  intros Hs.
  destruct (run_agree common_client atlas_client fuel n 0 s1 s2)
    as (Htr & Hout & (entries & Hl1 & Hl2) & Hk & _);
    [by apply same_agree_at..|].
  destruct (run_from _ fuel n s1) as [tr1 r1], (run_from _ fuel n s2) as [tr2 r2].
  simpl in *. subst tr2. exists tr1, r1, r2, entries.
  split; [done|]. split; [done|]. split; [done|].
  split; [|done]. apply (agree_at_same 0); [lia|done].
Qed.

Lemma log_is_never_read_witness :
  ∃ trace r1 r2 entries,
    run_from (workflow (CommonMcpClient demo_repr) AtlasMcpClient)
      recursion_limit "INTAKE" sample_input = (trace, r1) ∧
    run_from (workflow (CommonMcpClient demo_repr) AtlasMcpClient)
      recursion_limit "INTAKE" sample_logged = (trace, r2) ∧
    same_outcome r1 r2 ∧
    same_but_log (result_state r1) (result_state r2) ∧
    log (result_state r1) = log sample_input ++ entries ∧
    log (result_state r2) = log sample_logged ++ entries.
Proof.
  apply (log_is_never_read (CommonMcpClient demo_repr) AtlasMcpClient
           recursion_limit "INTAKE" sample_input sample_logged).
  repeat split.
Defined.

(** X18.  A completed run owes nothing to what the state held besides the
    payload.  Started on any other state with the same payload (say one that
    still holds the results and the log of an earlier run) the app calls the
    same stages and completes as well, with the same structured data, enriched
    data, article, decision, response and status; the two logs grow by the
    same entries. *)
Theorem completed_run_ignores_leftovers (common_client : CommonMcp)
    (atlas_client : AtlasMcp) (s1 s2 fin1 : AgentState) (trace : list string) :
  input_fields s1 = input_fields s2 →
  invoke (workflow common_client atlas_client) s1 = (trace, Completed fin1) →
  ∃ fin2 entries,
    invoke (workflow common_client atlas_client) s2 = (trace, Completed fin2) ∧
    same_but_log fin1 fin2 ∧
    log fin1 = log s1 ++ entries ∧
    log fin2 = log s2 ++ entries.
Proof.
  unfold invoke. change (entry_point _) with (Some "INTAKE"). cbv beta iota.
  intros Hin Hrun.
  assert (agree_at 9 s1 s2) as H9.
  { unfold agree_at. repeat split; intros; try done; lia. }
  destruct (run_agree common_client atlas_client recursion_limit "INTAKE" 9 s1 s2)
    as (Htr & Hout & (entries & Hl1 & Hl2) & _ & Hc); [done..|].
  rewrite Hrun in *. simpl in *. specialize (Hc fin1 eq_refl).
  destruct (run_from _ _ "INTAKE" s2) as [tr2 [fin2|err p]]; simpl in *; [|done].
  subst tr2. by exists fin2, entries.
Qed.

Lemma completed_run_ignores_leftovers_witness :
  ∃ fin2 entries,
    invoke (workflow (CommonMcpClient demo_repr) AtlasMcpClient) demo_final
      = (resolved_path, Completed fin2) ∧
    same_but_log demo_final fin2 ∧
    log demo_final = log sample_input ++ entries ∧
    log fin2 = log demo_final ++ entries.
Proof.
  apply (completed_run_ignores_leftovers (CommonMcpClient demo_repr)
           AtlasMcpClient sample_input demo_final demo_final resolved_path).
  - vm_compute. reflexivity.
  - exact demo_run_result.
Defined.

(** ** The app of the source, from payload to outcome *)

Section SourceApp.

Variable py_repr : value → string.

#[local] Abbreviation g := (workflow (CommonMcpClient py_repr) AtlasMcpClient).









End SourceApp.




(** ** Merged capability results *)

Lemma merge_dict_lookup {V} (a b : gmap string V) (k : string) :
  merge_dict a b !! k = match b !! k with Some v => Some v | None => a !! k end.
Proof.
  unfold merge_dict. rewrite lookup_union.
  by destruct (b !! k), (a !! k).
Qed.

(** X21.  UNDERSTAND and PREPARE store the results of their capability calls
    merged into one dictionary, a later result winning over an earlier one on
    a shared key: in [structured_data] the extracted entities win over the
    parse result; in [enriched_data] the flags win over the enrichment, which
    wins over the normalised fields. *)
Theorem merged_results_precedence (common_client : CommonMcp)
    (atlas_client : AtlasMcp) (st st' : AgentState) (u : unit) :
  (stage_understand common_client atlas_client st = (st', Ok u) →
   ∃ parsed_result entities_result sd,
     parse_request_text common_client (query st) = Ok parsed_result ∧
     extract_entities atlas_client (query st) = Ok entities_result ∧
     structured_data st' = Some sd ∧
     ∀ k, sd !! k =
            match entities_result !! k with
            | Some l => Some (VList (VStr <$> l))
            | None => parsed_result !! k
            end) ∧
  (stage_prepare common_client atlas_client st = (st', Ok u) →
   ∃ normalized_result enriched_result flags_result ed,
     normalize_fields common_client (ticket_id st) = Ok normalized_result ∧
     enrich_records atlas_client (email st) = Ok enriched_result ∧
     add_flags_calculations common_client (priority st) (query st)
       = Ok flags_result ∧
     enriched_data st' = Some ed ∧
     ∀ k, ed !! k =
            match flags_result !! k with
            | Some v => Some v
            | None =>
                match enriched_result !! k with
                | Some v => Some v
                | None => VStr <$> normalized_result !! k
                end
            end).
Proof.
  split.
  - unfold stage_understand. intros H. unfold_monad. simpl in H.
    destruct (parse_request_text common_client (query st)) as [p|] eqn:Hp; [|done].
    simpl in H.
    destruct (extract_entities atlas_client (query st)) as [en|] eqn:He; [|done].
    simpl in H. simplify_eq. eexists p, en, _.
    split; [done|]. split; [done|]. split; [reflexivity|].
    intros k. rewrite merge_dict_lookup. unfold list_values.
    rewrite lookup_fmap. by destruct (en !! k).
  - unfold stage_prepare. intros H. unfold_monad. simpl in H.
    destruct (normalize_fields common_client (ticket_id st)) as [nr|] eqn:Hn;
      [|done].
    simpl in H.
    destruct (enrich_records atlas_client (email st)) as [er|] eqn:He; [|done].
    simpl in H.
    destruct (add_flags_calculations common_client (priority st) (query st))
      as [fr|] eqn:Hf; [|done].
    simpl in H. simplify_eq. eexists nr, er, fr, _.
    split; [done|]. split; [done|]. split; [done|]. split; [reflexivity|].
    intros k. rewrite !merge_dict_lookup. unfold str_values.
    by rewrite lookup_fmap.
Qed.

Lemma merged_results_precedence_witness :
  ∃ normalized_result enriched_result flags_result ed,
    normalize_fields (CommonMcpClient demo_repr) (ticket_id sample_input)
      = Ok normalized_result ∧
    enrich_records AtlasMcpClient (email sample_input) = Ok enriched_result ∧
    add_flags_calculations (CommonMcpClient demo_repr) (priority sample_input)
      (query sample_input) = Ok flags_result ∧
    enriched_data
      (stage_prepare (CommonMcpClient demo_repr) AtlasMcpClient sample_input).1
      = Some ed ∧
    ∀ k, ed !! k =
           match flags_result !! k with
           | Some v => Some v
           | None =>
               match enriched_result !! k with
               | Some v => Some v
               | None => VStr <$> normalized_result !! k
               end
           end.
Proof.
  apply (proj2 (merged_results_precedence (CommonMcpClient demo_repr)
                  AtlasMcpClient sample_input _ tt)).
  vm_compute. reflexivity.
Defined.
